(** * Flow: a fluent value pipeline (immediate and deferred mode)

    Shallow embedding of the [Flow] class, the [FlowContext] registry,
    [isValidFunctionCallSpec] and the [flow] factory.

    Modelling choices.
    - JavaScript values are the inductive type [val].  Numbers are integers
      ([Z]); no property proved here depends on floating point.
    - A promise is represented by the way it eventually settles
      ([Fulfilled], [Rejected], or [Pending] for one that never settles).
      [await] reads that settlement.  The order in which the event loop
      interleaves micro-tasks is therefore not part of the model: the world
      after an operation is the world once every pending computation that
      the operation started has run as far as it can.
    - Objects other than native promises are never treated as thenables.
    - Containers live in a store ([heap]) and are referred to by their
      index, so that mutation in place and aliasing are visible.
    - User supplied functions are state transformers over an abstract user
      state; they may throw, and they do not call back into the pipeline.
      Every application of a stage's transformer and of an error handler is
      recorded in the [trace] of the world by the engine, which allows to
      count invocations.
    - The number of attempts of [retry] and the delay of [delay] are
      integers.  The exports [flow.$], [flow.$orig], [flow.$both] and the
      element, tooltip and class-name helpers play no part here. *)

From stdpp Require Import base numbers list strings.

Open Scope Z_scope.

(** ** Values *)

Inductive settlement (A : Type) : Type :=
| Fulfilled (a : A)
| Rejected (reason : A)
| Pending.
Arguments Fulfilled {A} a.
Arguments Rejected {A} reason.
Arguments Pending {A}.

#[local] Set Warnings "-register-all".
Inductive val : Type :=
| VUndefined
| VNull
| VBool (b : bool)
| VNum (n : Z)
| VStr (s : string)
| VSymbol (id : nat)
| VArray (items : list val)
| VObject (fields : list (string * val))
| VFun (id : nat) (async : bool)
| VPromise (st : settlement val)
| VFlow (r : nat).

(** Outcome of evaluating a piece of synchronous code. *)
Inductive completion (A : Type) : Type :=
| Normal (a : A)
| Thrown (e : val).
Arguments Normal {A} a.
Arguments Thrown {A} e.

(** [typeof v] *)
Definition typeof (v : val) : string :=
  match v with
  | VUndefined => "undefined"
  | VNull => "object"
  | VBool _ => "boolean"
  | VNum _ => "number"
  | VStr _ => "string"
  | VSymbol _ => "symbol"
  | VArray _ | VObject _ | VPromise _ | VFlow _ => "object"
  | VFun _ _ => "function"
  end.

(** ToBoolean, as used by [!spec] and [args[0] && ...]. *)
Definition truthy (v : val) : bool :=
  match v with
  | VUndefined | VNull => false
  | VBool b => b
  | VNum n => negb (n =? 0)
  | VStr s => negb (String.eqb s "")
  | _ => true
  end.

Fixpoint assoc (k : string) (fs : list (string * val)) : option val :=
  match fs with
  | [] => None
  | (k', v) :: fs' => if String.eqb k k' then Some v else assoc k fs'
  end.

(** Property read [o.k] for the two keys the engine reads ([this] and
    [args]): only plain objects carry them; reading a missing property
    gives [undefined]. *)
Definition get_prop (o : val) (k : string) : val :=
  match o with
  | VObject fs => default VUndefined (assoc k fs)
  | _ => VUndefined
  end.

(** [a !== undefined] *)
Definition is_defined (v : val) : bool :=
  match v with VUndefined => false | _ => true end.

(** [Array.isArray(v)] *)
Definition isArray (v : val) : bool :=
  match v with VArray _ => true | _ => false end.

(** [a ?? b] *)
Definition nullish_or (a b : val) : val :=
  match a with VUndefined | VNull => b | _ => a end.

(** [v === Symbol_id]: a symbol is strictly equal to itself only. *)
Definition strict_eq_symbol (v : val) (id : nat) : bool :=
  match v with VSymbol id' => Nat.eqb id' id | _ => false end.

(** [v instanceof Promise] *)
Definition instanceof_Promise (v : val) : bool :=
  match v with VPromise _ => true | _ => false end.

(** [v.constructor.name === 'AsyncFunction'] for a function value. *)
Definition is_AsyncFunction (v : val) : bool :=
  match v with VFun _ async => async | _ => false end.

(** [Promise.resolve(v)]: a native promise is returned as it is, anything
    else is wrapped in a promise fulfilled with it. *)
Definition Promise_resolve (v : val) : val :=
  match v with
  | VPromise _ => v
  | _ => VPromise (Fulfilled v)
  end.

(** [await v]: the settlement observed by the awaiting code. *)
Definition await (v : val) : settlement val :=
  match v with
  | VPromise st => st
  | _ => Fulfilled v
  end.

(** The error raised by the host when [Function.prototype.apply] is given an
    argument list that is not an object. *)
Definition TypeError : val := VObject [("name", VStr "TypeError")].

(** ** FlowContext *)

Module FlowContext.

(** The two symbols are created once, when the class is loaded; they are
    told apart, and from every other symbol, by their identity. *)
Definition returnOriginal_id : nat := 0%nat.
Definition returnBoth_id : nat := 1%nat.
Definition returnOriginal : val := VSymbol returnOriginal_id.
Definition returnBoth : val := VSymbol returnBoth_id.

End FlowContext.

(** ** isValidFunctionCallSpec *)

Definition isValidFunctionCallSpec (spec : val) : bool :=
  if negb (truthy spec) || negb (String.eqb (typeof spec) "object") then false
  else is_defined (get_prop spec "this") || isArray (get_prop spec "args").

(** ** The host environment

    [UserState] is the state user supplied functions may read and write.
    [array_like_object v] is the host's conversion of a non-array object to
    an argument list ([CreateListFromArrayLike]); [None] stands for the
    [TypeError] it may raise. *)
Class Host : Type := {
  UserState : Type;
  array_like_object : val -> option (list val)
}.

Section Engine.
Context `{H : Host}.

(** A function value that can be applied: [fn_async] tells whether it was
    declared [async]; [fn_body] is its body, from the [this] binding, the
    arguments and the user state. *)
Record callable : Type := mkCallable {
  fn_async : bool;
  fn_body : val -> list val -> UserState -> completion val * UserState
}.

(** The first parameter of [pipe]: a function, or a constant of any other
    type ([typeof transformer === 'function'] is the constructor test). *)
Inductive transformer : Type :=
| TFun (f : callable)
| TConst (c : val).

(** [(): void => {}] *)
Definition noop : callable :=
  {| fn_async := false; fn_body := fun _ _ u => (Normal VUndefined, u) |}.

Record Flow : Type := mkFlow {
  value : val;
  errorHandler : callable;
  isAsync : bool
}.

Inductive event : Type :=
| EvTransform (this : val) (args : list val)
| EvHandler (owner : nat) (error : val).

Record world : Type := mkWorld {
  user : UserState;
  heap : list Flow;
  currentValue : val;
  trace : list event
}.

Definition set_user (u : UserState) (w : world) : world :=
  {| user := u; heap := heap w; currentValue := currentValue w; trace := trace w |}.
Definition set_heap (h : list Flow) (w : world) : world :=
  {| user := user w; heap := h; currentValue := currentValue w; trace := trace w |}.
Definition set_currentValue (v : val) (w : world) : world :=
  {| user := user w; heap := heap w; currentValue := v; trace := trace w |}.
Definition log (e : event) (w : world) : world :=
  {| user := user w; heap := heap w; currentValue := currentValue w;
     trace := trace w ++ [e] |}.

(** ** Computations

    A computation runs in a world and either is stuck on a dangling
    container reference ([None], which no program can produce), or
    completes, normally or by throwing, in a new world. *)
Definition M (A : Type) : Type := world -> option (completion A * world).

Definition ret {A} (a : A) : M A := fun w => Some (Normal a, w).
Definition throw {A} (e : val) : M A := fun w => Some (Thrown e, w).
Definition bind {A B} (m : M A) (k : A -> M B) : M B :=
  fun w =>
    match m w with
    | Some (Normal a, w') => k a w'
    | Some (Thrown e, w') => Some (Thrown e, w')
    | None => None
    end.
Definition try_catch {A} (m : M A) (handler : val -> M A) : M A :=
  fun w =>
    match m w with
    | Some (Thrown e, w') => handler e w'
    | other => other
    end.
Definition modify (f : world -> world) : M unit :=
  fun w => Some (Normal tt, f w).
(** A computation that touches no container reference cannot be stuck. *)
Definition lift {A} (m : world -> completion A * world) : M A :=
  fun w => Some (m w).

End Engine.

Declare Scope flow_scope.
Delimit Scope flow_scope with flow.
Notation "x <- m ;; k" := (bind m (fun x => k))
  (at level 100, m at next level, right associativity) : flow_scope.
Notation "m ;;; k" := (bind m (fun _ => k))
  (at level 100, right associativity) : flow_scope.

(** ** The Flow class *)

Section FlowClass.
Context `{H : Host}.
Local Open Scope flow_scope.

(** [this]: the container behind reference [r]. *)
Definition this_flow (r : nat) : M Flow :=
  fun w =>
    match heap w !! r with
    | Some c => Some (Normal c, w)
    | None => None
    end.

(** [new Flow(initialValue, isAsync)]: the error handler starts as the
    no-op of the field initialiser. *)
Definition new_Flow (initialValue : val) (async : bool) : M nat :=
  fun w =>
    Some (Normal (length (heap w)),
          set_heap (heap w ++ [mkFlow initialValue noop async]) w).

(** Application of a function value to a [this] binding and arguments.  An
    [async] function never throws: it returns a promise settled by its
    body. *)
Definition invoke (f : callable) (this : val) (args : list val)
  : UserState -> completion val * UserState :=
  fun u =>
    let '(c, u') := fn_body f this args u in
    if fn_async f then
      (Normal (VPromise (match c with
                         | Normal v => await v
                         | Thrown e => Rejected e
                         end)), u')
    else (c, u').

Definition apply_callable (f : callable) (this : val) (args : list val)
  : world -> completion val * world :=
  fun w => let '(c, u) := invoke f this args (user w) in (c, set_user u w).

(** The argument list [Function.prototype.apply] builds from its second
    argument. *)
Definition CreateListFromArrayLike (v : val) : option (list val) :=
  match v with
  | VArray items => Some items
  | VUndefined | VNull => Some []
  | VBool _ | VNum _ | VStr _ | VSymbol _ => None
  | VObject _ | VFun _ _ | VPromise _ | VFlow _ => array_like_object v
  end.

Definition get (r : nat) : M val :=
  c <- this_flow r ;;
  if isAsync c then ret (Promise_resolve (value c))
  else ret (value c).

(** Returns the pair [(context, callArgs)]. *)
Definition prepareTransformationArgs (v : val) (args : list val) : val * val :=
  let args0 := nth 0 args VUndefined in
  if truthy args0 && isValidFunctionCallSpec args0 then
    (nullish_or (get_prop args0 "this") VNull,
     nullish_or (get_prop args0 "args") (VArray []))
  else
    (VNull, VArray (v :: args)).

Definition executeTransformation (t : transformer) (context callArgs : val)
  : world -> completion val * world :=
  fun w =>
    match t with
    | TFun f =>
        match CreateListFromArrayLike callArgs with
        | Some xs => apply_callable f context xs (log (EvTransform context xs) w)
        | None => (Thrown TypeError, w)
        end
    | TConst c => (Normal c, w)
    end.

Definition determineFinalValue (result originalValue : val) (args : list val) : val :=
  let lastArgument := List.last args VUndefined in
  if strict_eq_symbol lastArgument FlowContext.returnOriginal_id then originalValue
  else if strict_eq_symbol lastArgument FlowContext.returnBoth_id then
    VArray [result; originalValue]
  else result.

Definition handleSyncTransformation (r : nat) (t : transformer) (args : list val) : M nat :=
  c <- this_flow r ;;
  let v := value c in
  let '(context, callArgs) := prepareTransformationArgs v args in
  result <- lift (executeTransformation t context callArgs) ;;
  let finalValue := determineFinalValue result v args in
  new_Flow finalValue false.

(** The body of the [async] arrow [asyncTransform], run until it settles. *)
Definition asyncTransform (c : Flow) (t : transformer) (args : list val)
  : world -> settlement val * world :=
  fun w =>
    match await (Promise_resolve (value c)) with
    | Fulfilled v =>
        let '(context, callArgs) := prepareTransformationArgs v args in
        match executeTransformation t context callArgs w with
        | (Normal res, w') =>
            match await (Promise_resolve res) with
            | Fulfilled result => (await (determineFinalValue result v args), w')
            | Rejected e => (Rejected e, w')
            | Pending => (Pending, w')
            end
        | (Thrown e, w') => (Rejected e, w')
        end
    | Rejected e => (Rejected e, w)
    | Pending => (Pending, w)
    end.

Definition handleAsyncTransformation (r : nat) (t : transformer) (args : list val) : M nat :=
  c <- this_flow r ;;
  p <- lift (fun w => let '(st, w') := asyncTransform c t args w in
                      (Normal (VPromise st), w')) ;;
  new_Flow p (isAsync c).

Definition pipe (r : nat) (t : transformer) (args : list val) : M nat :=
  c <- this_flow r ;;
  modify (set_currentValue (value c)) ;;;
  try_catch
    (if negb (isAsync c) then handleSyncTransformation r t args
     else handleAsyncTransformation r t args)
    (fun error =>
       c' <- this_flow r ;;
       modify (log (EvHandler r error)) ;;;
       _ <- lift (apply_callable (errorHandler c') (VFlow r) [error]) ;;
       new_Flow VUndefined (isAsync c')).

(** [catch] *)
Definition catch (r : nat) (handler : callable) : M nat :=
  c <- this_flow r ;;
  modify (fun w => set_heap (<[r := mkFlow (value c) handler (isAsync c)]> (heap w)) w) ;;;
  ret r.

Definition tap (r : nat) (fn : callable) : M nat :=
  pipe r (TFun {| fn_async := false;
                  fn_body := fun _ xs u =>
                    let v := nth 0 xs VUndefined in
                    match invoke fn VUndefined [v] u with
                    | (Normal _, u') => (Normal v, u')
                    | (Thrown e, u') => (Thrown e, u')
                    end |}) [].

Definition map (r : nat) (fn : callable) : M nat :=
  pipe r (TFun fn) [].

Definition filter (r : nat) (predicate : callable) : M nat :=
  pipe r (TFun {| fn_async := false;
                  fn_body := fun _ xs u =>
                    let v := nth 0 xs VUndefined in
                    match invoke predicate VUndefined [v] u with
                    | (Normal b, u') => (Normal (if truthy b then v else VNull), u')
                    | (Thrown e, u') => (Thrown e, u')
                    end |}) [].

(** The transformer of [delay]: an [async] arrow that waits for a timer and
    returns its argument.  The timer always fires; the time it takes is not
    modelled. *)
Definition delay_transformer (ms : Z) : callable :=
  {| fn_async := true;
     fn_body := fun _ args u => (Normal (nth 0 args VUndefined), u) |}.

Definition delay (r : nat) (ms : Z) : M nat :=
  pipe r (TFun (delay_transformer ms)) [].

(** The [for] loop of [retry], from counter [i].  [fuel] bounds the number
    of iterations; [attempts - i] iterations at most are needed.  The
    result is the completion of the [async] body; awaiting a promise that
    never settles is rendered as returning that promise.  [attempts] is a
    whole number here; a fractional one, for which the test
    [i === attempts - 1] is never met, has no counterpart. *)
Fixpoint retry_loop (fuel : nat) (v : val) (attempts i : Z) : option (completion val) :=
  match fuel with
  | O => None
  | S fuel' =>
      if i <? attempts then
        match await (Promise_resolve v) with
        | Fulfilled x => Some (Normal x)
        | Rejected error =>
            if i =? attempts - 1 then Some (Thrown error)
            else retry_loop fuel' v attempts (i + 1)
        | Pending => Some (Normal (VPromise Pending))
        end
      else Some (Normal VUndefined)
  end.

Definition retry_fuel (attempts : Z) : nat := S (Z.to_nat attempts).

Definition retry_transformer (attempts : Z) : callable :=
  {| fn_async := true;
     fn_body := fun _ args u =>
       (default (Normal (VPromise Pending))
          (retry_loop (retry_fuel attempts) (nth 0 args VUndefined) attempts 0), u) |}.

Definition retry (r : nat) (attempts : Z) : M nat :=
  pipe r (TFun (retry_transformer attempts)) [].

(** The first parameter of [when]: a boolean or a predicate. *)
Inductive condition : Type :=
| CondFun (f : callable)
| CondBool (b : bool).

Definition when (r : nat) (cond : condition) (thenFn : callable)
    (elseFn : option callable) : M nat :=
  pipe r (TFun {| fn_async := false;
                  fn_body := fun _ xs u =>
                    let v := nth 0 xs VUndefined in
                    let '(result, u1) :=
                      match cond with
                      | CondFun f => invoke f VUndefined [v] u
                      | CondBool b => (Normal (VBool b), u)
                      end in
                    match result with
                    | Thrown e => (Thrown e, u1)
                    | Normal b =>
                        if truthy b then invoke thenFn VUndefined [v] u1
                        else match elseFn with
                             | Some f => invoke f VUndefined [v] u1
                             | None => (Normal v, u1)
                             end
                    end |}) [].

(** The factory. *)
Definition flow (initialValue : val) : M nat :=
  let async := instanceof_Promise initialValue
               || (String.eqb (typeof initialValue) "function" && is_AsyncFunction initialValue) in
  new_Flow initialValue async.

Definition empty_world (u : UserState) : world :=
  {| user := u; heap := []; currentValue := VUndefined; trace := [] |}.

End FlowClass.

(** ** Observations on worlds and traces *)

Section Observations.
Context `{H : Host}.

(** The applications of stage transformers recorded in a trace, in order:
    the [this] binding and the argument list of each. *)
Fixpoint transform_calls (tr : list event) : list (val * list val) :=
  match tr with
  | [] => []
  | EvTransform this xs :: tr' => (this, xs) :: transform_calls tr'
  | EvHandler _ _ :: tr' => transform_calls tr'
  end.

(** The applications of error handlers recorded in a trace, in order: the
    container that owns the handler and the error it was given. *)
Fixpoint handler_calls (tr : list event) : list (nat * val) :=
  match tr with
  | [] => []
  | EvTransform _ _ :: tr' => handler_calls tr'
  | EvHandler r e :: tr' => (r, e) :: handler_calls tr'
  end.

(** The function applied to these arguments returns instead of throwing. *)
Definition returns_normally (f : callable) (this : val) (args : list val)
    (u : UserState) : Prop :=
  exists v u', invoke f this args u = (Normal v, u').

(** Steps 2 to 4 of an immediate stage raise [e], leaving world [w1]. *)
Definition sync_stage_throws (c : Flow) (t : transformer) (args : list val)
    (w : world) (e : val) (w1 : world) : Prop :=
  executeTransformation t
    (fst (prepareTransformationArgs (value c) args))
    (snd (prepareTransformationArgs (value c) args))
    (set_currentValue (value c) w) = (Thrown e, w1).

(** The pending computation built by a deferred stage fails with [e]: the
    source payload is rejected, or the transformer throws, or the
    transformer's result is rejected. *)
Inductive deferred_stage_fails (c : Flow) (t : transformer) (args : list val)
    (w : world) (e : val) : Prop :=
| source_rejected :
    await (value c) = Rejected e ->
    deferred_stage_fails c t args w e
| transformer_throws v w1 :
    await (value c) = Fulfilled v ->
    executeTransformation t
      (fst (prepareTransformationArgs v args))
      (snd (prepareTransformationArgs v args))
      (set_currentValue (value c) w) = (Thrown e, w1) ->
    deferred_stage_fails c t args w e
| result_rejected v res w1 :
    await (value c) = Fulfilled v ->
    executeTransformation t
      (fst (prepareTransformationArgs v args))
      (snd (prepareTransformationArgs v args))
      (set_currentValue (value c) w) = (Normal res, w1) ->
    await res = Rejected e ->
    deferred_stage_fails c t args w e.

(** The first extra argument has the shape of an invocation override: an
    object with a [this] field that is not undefined, or with an [args]
    field holding an array. *)
Definition is_override_spec (a : val) : Prop :=
  typeof a = "object" /\ a <> VNull /\
  (get_prop a "this" <> VUndefined \/ exists xs, get_prop a "args" = VArray xs).

(** Container [r] resolves to [x]: its accessor gives [x], or an awaitable
    that is fulfilled with [x]. *)
Definition resolves_to (w : world) (r : nat) (x : val) : Prop :=
  exists g, get r w = Some (Normal g, w) /\ await g = Fulfilled x.

(** Container [r] resolves to a failure [e]. *)
Definition rejects_with (w : world) (r : nat) (e : val) : Prop :=
  exists g, get r w = Some (Normal g, w) /\ await g = Rejected e.

(** The chaining operations of the class. *)
Inductive chaining : Type :=
| OpPipe (t : transformer) (args : list val)
| OpTap (fn : callable)
| OpMap (fn : callable)
| OpFilter (predicate : callable)
| OpDelay (ms : Z)
| OpRetry (attempts : Z)
| OpWhen (cond : condition) (thenFn : callable) (elseFn : option callable).

Definition chain (r : nat) (op : chaining) : M nat :=
  match op with
  | OpPipe t args => pipe r t args
  | OpTap fn => tap r fn
  | OpMap fn => map r fn
  | OpFilter p => filter r p
  | OpDelay ms => delay r ms
  | OpRetry n => retry r n
  | OpWhen c f g => when r c f g
  end.

(** Any operation a caller can perform on a container. *)
Inductive operation : Type :=
| OGet
| OCatch (handler : callable)
| OChain (op : chaining).

(** The world after one operation on container [r] (the result and a
    possible failure are dropped). *)
Definition step (r : nat) (o : operation) (w : world) : option world :=
  match o with
  | OGet => snd <$> get r w
  | OCatch h => snd <$> catch r h w
  | OChain op => snd <$> chain r op w
  end.

(** The world after a sequence of operations, each on a container of its
    own choice. *)
Fixpoint run (prog : list (nat * operation)) (w : world) : option world :=
  match prog with
  | [] => Some w
  | (r, o) :: prog' =>
      match step r o w with
      | Some w' => run prog' w'
      | None => None
      end
  end.

(** Number of chaining operations (stages) in a sequence of operations. *)
Fixpoint stages (prog : list (nat * operation)) : nat :=
  match prog with
  | [] => O
  | (_, OChain _) :: prog' => S (stages prog')
  | _ :: prog' => stages prog'
  end.

(** The seed is a pending computation, or a function declared [async]. *)
Definition deferred_seed (v : val) : Prop :=
  (exists st, v = VPromise st) \/ (exists id, v = VFun id true).

(** One reading of "every attempt re-observes the rejection": between [w]
    and [w'] the retry transformer has been applied, to a value whose
    observation is the rejection [e]. *)
Definition attempts_observe_rejection (w w' : world) (e : val) : Prop :=
  exists this v,
    transform_calls (trace w') = transform_calls (trace w) ++ [(this, [v])] /\
    await v = Rejected e.

(** Sample transformers used in the examples. *)
Definition double : callable :=
  {| fn_async := false;
     fn_body := fun _ xs u =>
       (match nth 0 xs VUndefined with
        | VNum n => Normal (VNum (n * 2))
        | _ => Normal VUndefined
        end, u) |}.

Definition throwing (e : val) : callable :=
  {| fn_async := false; fn_body := fun _ _ u => (Thrown e, u) |}.

(** [n => n > 0] *)
Definition positive : callable :=
  {| fn_async := false;
     fn_body := fun _ xs u =>
       (match nth 0 xs VUndefined with
        | VNum n => Normal (VBool (0 <? n))
        | _ => Normal (VBool false)
        end, u) |}.

(** [v => v % 2 === 0] *)
Definition even : callable :=
  {| fn_async := false;
     fn_body := fun _ xs u =>
       (match nth 0 xs VUndefined with
        | VNum n => Normal (VBool (n mod 2 =? 0))
        | _ => Normal (VBool false)
        end, u) |}.

(** [v => v * 10] *)
Definition times10 : callable :=
  {| fn_async := false;
     fn_body := fun _ xs u =>
       (match nth 0 xs VUndefined with
        | VNum n => Normal (VNum (n * 10))
        | _ => Normal VUndefined
        end, u) |}.

(** [v => v] *)
Definition identity : callable :=
  {| fn_async := false; fn_body := fun _ xs u => (Normal (nth 0 xs VUndefined), u) |}.

(** [async v => v + 1] *)
Definition async_succ : callable :=
  {| fn_async := true;
     fn_body := fun _ xs u =>
       (match nth 0 xs VUndefined with
        | VNum n => Normal (VNum (n + 1))
        | _ => Normal VUndefined
        end, u) |}.

(** A handler that raises what it is given. *)
Definition rethrow : callable :=
  {| fn_async := false;
     fn_body := fun _ xs u => (Thrown (nth 0 xs VUndefined), u) |}.

(** A settlement a promise can have: a promise is never fulfilled with
    another promise (resolution unwraps them). *)
Definition well_settled (st : settlement val) : Prop :=
  match st with
  | Fulfilled x => instanceof_Promise x = false
  | _ => True
  end.

(** The settlement of the pending computation that a deferred stage without
    extra arguments builds, from the completion of its transformer: the
    result is awaited, a throw is a rejection. *)
Definition stage_settlement (cpl : completion val) : settlement val :=
  match cpl with
  | Normal res =>
      match await res with
      | Fulfilled y => await y
      | Rejected e => Rejected e
      | Pending => Pending
      end
  | Thrown e => Rejected e
  end.

(** [v] is the value a stage on container [c] works on: the payload itself
    in immediate mode; in deferred mode the value the payload is fulfilled
    with. *)
Definition stage_input (c : Flow) (v : val) : Prop :=
  if isAsync c then await (value c) = Fulfilled v /\ instanceof_Promise v = false
  else v = value c.

(** The payload of the container made by a stage on [c] without extra
    arguments whose transformer returns [out]: [out] itself in immediate
    mode; in deferred mode the promise settled by awaiting [out]. *)
Definition stage_output (c : Flow) (out : val) : val :=
  if isAsync c then VPromise (stage_settlement (Normal out)) else out.

(** [typeof condition === 'function' ? condition(value) : condition] *)
Definition eval_condition (cond : condition) (v : val) (u : UserState)
  : completion val * UserState :=
  match cond with
  | CondFun f => invoke f VUndefined [v] u
  | CondBool b => (Normal (VBool b), u)
  end.

(** The stage [pipe(f, ...args)] on container [r] applies [f], once, with
    binding [ctx] to the argument list [xs]; and when that application
    returns [x], [pipe] returns a new container of the mode of [c], the
    effect of [f] on the user state is kept, and the new payload is [x]
    shaped by the last extra argument ([v] being the stage input), awaited
    first in deferred mode. *)
Definition stage_applies (w : world) (r : nat) (c : Flow) (f : callable)
    (args : list val) (v ctx : val) (xs : list val) : Prop :=
  exists res w',
    pipe r (TFun f) args w = Some (res, w') /\
    transform_calls (trace w') = transform_calls (trace w) ++ [(ctx, xs)] /\
    forall x u',
      invoke f ctx xs (user w) = (Normal x, u') ->
      res = Normal (length (heap w)) /\
      user w' = u' /\
      heap w' = heap w ++
        [mkFlow (if isAsync c
                 then VPromise
                        match await x with
                        | Fulfilled y => await (determineFinalValue y v args)
                        | Rejected e => Rejected e
                        | Pending => Pending
                        end
                 else determineFinalValue x v args) noop (isAsync c)].

(** The stage [pipe(f, ...args)] on container [r] fails with [e] before [f]
    is applied: no transformer application is recorded and the user state
    is not touched by [f]; in immediate mode [e] goes to the handler of
    [r], in deferred mode it is the rejection of the new payload. *)
Definition stage_fails_uncalled (w : world) (r : nat) (c : Flow) (f : callable)
    (args : list val) (e : val) : Prop :=
  exists res w',
    pipe r (TFun f) args w = Some (res, w') /\
    transform_calls (trace w') = transform_calls (trace w) /\
    (isAsync c = false ->
     handler_calls (trace w') = handler_calls (trace w) ++ [(r, e)]) /\
    (isAsync c = true ->
     res = Normal (length (heap w)) /\
     heap w' = heap w ++ [mkFlow (VPromise (Rejected e)) noop true] /\
     handler_calls (trace w') = handler_calls (trace w) /\
     user w' = user w).

(** [async () => { throw e }] *)
Definition async_throwing (e : val) : callable :=
  {| fn_async := true; fn_body := fun _ _ u => (Thrown e, u) |}.

(** [async v => v > 0] *)
Definition async_positive : callable :=
  {| fn_async := true;
     fn_body := fun _ xs u =>
       (match nth 0 xs VUndefined with
        | VNum n => Normal (VBool (0 <? n))
        | _ => Normal (VBool false)
        end, u) |}.

End Observations.

(** A host whose user state is a log of values, and whose non-array objects
    convert to the empty argument list (as objects without a [length] do). *)
Definition plain_host : Host :=
  {| UserState := list val; array_like_object := fun _ => Some [] |}.

(** On that host: a handler that appends the error it is given to the log. *)
Definition recording : @callable plain_host :=
  {| fn_async := false;
     fn_body := fun _ xs (u : @UserState plain_host) => (Normal VUndefined, u ++ xs) |}.

(** A world with a single container. *)
Definition single (c : @Flow plain_host) : @world plain_host :=
  @mkWorld plain_host (@nil val) [c] VUndefined [].

(** The world before any container exists, on [plain_host]. *)
Definition start : @world plain_host := @empty_world plain_host (@nil val).

(** * Properties *)

Section Properties.
Context `{H : Host}.
Local Open Scope flow_scope.

Lemma await_Promise_resolve (v : val) : await (Promise_resolve v) = await v.
Proof. destruct v; reflexivity. Qed.

Lemma invoke_async (f : callable) this args u :
  fn_async f = true ->
  exists st u', invoke f this args u = (Normal (VPromise st), u').
Proof.
  intros Ha. unfold invoke. destruct (fn_body f this args u) as [c u'].
  rewrite Ha. eauto.
Qed.

Lemma apply_callable_frame (f : callable) this args w c w' :
  apply_callable f this args w = (c, w') ->
  heap w' = heap w /\ trace w' = trace w /\ currentValue w' = currentValue w.
Proof.
  unfold apply_callable. destruct (invoke f this args (user w)) as [c0 u].
  intros [= <- <-]. auto.
Qed.

Lemma executeTransformation_frame (t : transformer) ctx callArgs w c w' :
  executeTransformation t ctx callArgs w = (c, w') ->
  heap w' = heap w /\ currentValue w' = currentValue w /\
  (trace w' = trace w \/ exists xs, trace w' = trace w ++ [EvTransform ctx xs]).
Proof.
  unfold executeTransformation. destruct t as [f|k].
  - destruct (CreateListFromArrayLike callArgs) as [xs|].
    + intros Hc. apply apply_callable_frame in Hc as (Hh & Ht & Hv).
      simpl in *. repeat split; auto. right. exists xs. exact Ht.
    + intros [= <- <-]. auto.
  - intros [= <- <-]. auto.
Qed.

Lemma asyncTransform_frame (c : Flow) t args w st w' :
  asyncTransform c t args w = (st, w') ->
  heap w' = heap w /\ currentValue w' = currentValue w /\
  (trace w' = trace w \/ exists ctx xs, trace w' = trace w ++ [EvTransform ctx xs]).
Proof.
  unfold asyncTransform.
  destruct (await (Promise_resolve (value c))) as [v|e|]; try (intros [= <- <-]; auto).
  destruct (prepareTransformationArgs v args) as [ctx callArgs].
  destruct (executeTransformation t ctx callArgs w) as [[res|e] w1] eqn:He.
  - apply executeTransformation_frame in He as (Hh & Hv & Ht).
    assert (Htr : trace w1 = trace w \/
                  exists ctx xs, trace w1 = trace w ++ [EvTransform ctx xs])
      by (destruct Ht as [|[xs ?]]; eauto).
    destruct (await (Promise_resolve res)); intros [= <- <-]; auto.
  - apply executeTransformation_frame in He as (Hh & Hv & Ht).
    intros [= <- <-]. repeat split; auto. destruct Ht as [|[xs ?]]; eauto.
Qed.

(** What [pipe] does on an immediate container whose stage completes. *)
Lemma pipe_sync_normal (w : world) r (c : Flow) t args res w1 :
  heap w !! r = Some c -> isAsync c = false ->
  executeTransformation t
    (fst (prepareTransformationArgs (value c) args))
    (snd (prepareTransformationArgs (value c) args))
    (set_currentValue (value c) w) = (Normal res, w1) ->
  pipe r t args w =
    Some (Normal (length (heap w)),
          set_heap (heap w ++ [mkFlow (determineFinalValue res (value c) args) noop false]) w1).
Proof.
  intros Hr Hm He.
  pose proof (executeTransformation_frame _ _ _ _ _ _ He) as (Hh & _ & _).
  simpl in Hh.
  unfold pipe, bind, this_flow, try_catch, modify. rewrite Hr, Hm. simpl.
  unfold handleSyncTransformation, bind, this_flow, lift. simpl. rewrite Hr.
  destruct (prepareTransformationArgs (value c) args) as [ctx ca]. simpl in He.
  rewrite He. unfold new_Flow. rewrite Hh. reflexivity.
Qed.

(** What [pipe] does on an immediate container whose stage throws. *)
Lemma pipe_sync_thrown (w : world) r (c : Flow) t args e w1 :
  heap w !! r = Some c -> isAsync c = false ->
  sync_stage_throws c t args w e w1 ->
  pipe r t args w =
    match apply_callable (errorHandler c) (VFlow r) [e] (log (EvHandler r e) w1) with
    | (Normal _, w2) =>
        Some (Normal (length (heap w)),
              set_heap (heap w ++ [mkFlow VUndefined noop false]) w2)
    | (Thrown e', w2) => Some (Thrown e', w2)
    end.
Proof.
  intros Hr Hm He. unfold sync_stage_throws in He.
  pose proof (executeTransformation_frame _ _ _ _ _ _ He) as (Hh & _ & _).
  simpl in Hh.
  unfold pipe, bind, this_flow, try_catch, modify. rewrite Hr, Hm. simpl.
  unfold handleSyncTransformation, bind, this_flow, lift. simpl. rewrite Hr.
  destruct (prepareTransformationArgs (value c) args) as [ctx ca]. simpl in He.
  rewrite He. rewrite Hh, Hr.
  destruct (apply_callable (errorHandler c) (VFlow r) [e] (log (EvHandler r e) w1))
    as [[x|e'] w2] eqn:Ha; [|reflexivity].
  apply apply_callable_frame in Ha as (Hh2 & _ & _). simpl in Hh2.
  unfold new_Flow. rewrite Hh2, Hh, Hm. reflexivity.
Qed.

(** What [pipe] does on a deferred container. *)
Lemma pipe_async (w : world) r (c : Flow) t args :
  heap w !! r = Some c -> isAsync c = true ->
  pipe r t args w =
    let '(st, w1) := asyncTransform c t args (set_currentValue (value c) w) in
    Some (Normal (length (heap w)),
          set_heap (heap w ++ [mkFlow (VPromise st) noop true]) w1).
Proof.
  intros Hr Hm.
  unfold pipe, bind, this_flow, try_catch, modify. rewrite Hr, Hm. simpl.
  unfold handleAsyncTransformation, bind, this_flow, lift. simpl. rewrite Hr.
  destruct (asyncTransform c t args (set_currentValue (value c) w)) as [st w1] eqn:Ha.
  apply asyncTransform_frame in Ha as (Hh & _ & _). simpl in Hh.
  unfold new_Flow. rewrite Hh, Hm. reflexivity.
Qed.

(** ** The operators on small inputs *)

Example constant_propagation (k : val) (u : UserState) :
  fst <$> (r <- flow (VNum 1) ;; r' <- pipe r (TConst k) [] ;; get r') (empty_world u)
  = Some (Normal k).
Proof. reflexivity. Qed.

Example filter_keeps (u : UserState) :
  fst <$> (r <- flow (VNum 5) ;; r' <- filter r positive ;; get r') (empty_world u)
  = Some (Normal (VNum 5)).
Proof. reflexivity. Qed.

Example filter_nulls (u : UserState) :
  fst <$> (r <- flow (VNum (-5)) ;; r' <- filter r positive ;; get r') (empty_world u)
  = Some (Normal VNull).
Proof. reflexivity. Qed.

Example when_then (u : UserState) :
  fst <$> (r <- flow (VNum 2) ;;
           r' <- when r (CondFun even) times10 (Some identity) ;;
           get r') (empty_world u)
  = Some (Normal (VNum 20)).
Proof. reflexivity. Qed.

Example when_else (u : UserState) :
  fst <$> (r <- flow (VNum 3) ;;
           r' <- when r (CondFun even) times10 (Some identity) ;;
           get r') (empty_world u)
  = Some (Normal (VNum 3)).
Proof. reflexivity. Qed.

Example tap_forwards (u : UserState) :
  fst <$> (r <- flow (VNum 7) ;; r' <- tap r times10 ;; get r') (empty_world u)
  = Some (Normal (VNum 7)).
Proof. reflexivity. Qed.

(** Two inputs at the edge of the override convention: a [this] field set
    to undefined does not make an override, and an [args] field that is not
    an argument list makes the application fail before the transformer
    runs. *)
Example override_needs_defined_this (v : val) :
  prepareTransformationArgs v [VObject [("this", VUndefined)]]
  = (VNull, VArray [v; VObject [("this", VUndefined)]]).
Proof. reflexivity. Qed.

Example override_with_number_args (v : val) (f : callable) (w : world) :
  executeTransformation (TFun f)
    (fst (prepareTransformationArgs v [VObject [("this", VStr "ctx"); ("args", VNum 5)]]))
    (snd (prepareTransformationArgs v [VObject [("this", VStr "ctx"); ("args", VNum 5)]]))
    w
  = (Thrown TypeError, w).
Proof. reflexivity. Qed.

Example deferred_propagation (u : UserState) :
  fst <$> (r <- flow (VPromise (Fulfilled (VNum 1))) ;;
           r' <- pipe r (TFun async_succ) [] ;;
           c <- this_flow r' ;;
           g <- get r' ;;
           ret (isAsync c, await g)) (empty_world u)
  = Some (Normal (true, Fulfilled (VNum 2))).
Proof. reflexivity. Qed.

Lemma transform_calls_app (a b : list event) :
  transform_calls (a ++ b) = transform_calls a ++ transform_calls b.
Proof. induction a as [|[] a IH]; simpl; auto. now rewrite IH. Qed.

Lemma handler_calls_app (a b : list event) :
  handler_calls (a ++ b) = handler_calls a ++ handler_calls b.
Proof. induction a as [|[] a IH]; simpl; auto. now rewrite IH. Qed.

Lemma handler_calls_transform_step (tr tr' : list event) :
  tr' = tr \/ (exists ctx xs, tr' = tr ++ [EvTransform ctx xs]) ->
  handler_calls tr' = handler_calls tr.
Proof.
  intros [->|(ctx & xs & ->)]; [reflexivity|].
  rewrite handler_calls_app. simpl. apply app_nil_r.
Qed.

Lemma transform_calls_step (tr tr' : list event) :
  tr' = tr \/ (exists ctx xs, tr' = tr ++ [EvTransform ctx xs]) ->
  (length (transform_calls tr') <= length (transform_calls tr) + 1)%nat.
Proof.
  intros [->|(ctx & xs & ->)]; [lia|].
  rewrite transform_calls_app, length_app. simpl. lia.
Qed.

Lemma get_new_Flow (w : world) (hp : list Flow) (c : Flow) :
  heap w = hp ++ [c] ->
  get (length hp) w =
    Some (Normal (if isAsync c then Promise_resolve (value c) else value c), w).
Proof.
  intros Hh. unfold get, bind, this_flow. rewrite Hh.
  rewrite lookup_app_r by lia. rewrite Nat.sub_diag. simpl.
  destruct (isAsync c); reflexivity.
Qed.

(** C1, as it holds on the code.  On an immediate container, when steps 2
    to 4 of a stage raise [e] and the registered handler returns normally on
    [e], [pipe] returns a fresh immediate container with an undefined
    payload and the handler of the source container has been applied exactly
    once more, to [e].  On a deferred container [pipe] applies no handler at
    all; a failure of the pending computation is the rejection of the new
    container's payload and is met when that container is resolved. *)
Theorem pipe_failure_isolation (w : world) (r : nat) (c : Flow)
    (t : transformer) (args : list val) :
  heap w !! r = Some c ->
  (isAsync c = false ->
   forall e w1,
     sync_stage_throws c t args w e w1 ->
     returns_normally (errorHandler c) (VFlow r) [e] (user w1) ->
     exists w',
       pipe r t args w = Some (Normal (length (heap w)), w') /\
       heap w' = heap w ++ [mkFlow VUndefined noop false] /\
       handler_calls (trace w') = handler_calls (trace w) ++ [(r, e)]) /\
  (isAsync c = true ->
   exists st w',
     pipe r t args w = Some (Normal (length (heap w)), w') /\
     heap w' = heap w ++ [mkFlow (VPromise st) noop true] /\
     handler_calls (trace w') = handler_calls (trace w) /\
     forall e, deferred_stage_fails c t args w e ->
       st = Rejected e /\ rejects_with w' (length (heap w)) e).
Proof.
  intros Hr. split.
  - intros Hm e w1 Hthrow (x & u' & Hret).
    rewrite (pipe_sync_thrown w r c t args e w1 Hr Hm Hthrow).
    unfold sync_stage_throws in Hthrow.
    apply executeTransformation_frame in Hthrow as (Hh & _ & Ht). simpl in Hh, Ht.
    unfold apply_callable. simpl. rewrite Hret.
    eexists. split; [reflexivity|]. simpl. split; [reflexivity|].
    rewrite handler_calls_app. simpl. f_equal.
    apply handler_calls_transform_step.
    destruct Ht as [|[xs ?]]; eauto.
  - intros Hm. rewrite (pipe_async w r c t args Hr Hm).
    destruct (asyncTransform c t args (set_currentValue (value c) w))
      as [st w1] eqn:Ha.
    pose proof (asyncTransform_frame _ _ _ _ _ _ Ha) as (Hh & _ & Ht).
    simpl in Hh, Ht.
    exists st. eexists. split; [reflexivity|]. simpl.
    split; [reflexivity|]. split; [now apply handler_calls_transform_step|].
    intros e Hfail.
    assert (Hst : st = Rejected e).
    { unfold asyncTransform in Ha. rewrite await_Promise_resolve in Ha.
      destruct Hfail as [Hs | v w2 Hs He | v res w2 Hs He Hres].
      - rewrite Hs in Ha. now inversion Ha.
      - rewrite Hs in Ha.
        destruct (prepareTransformationArgs v args) as [ctx ca]. simpl in He.
        rewrite He in Ha. now inversion Ha.
      - rewrite Hs in Ha.
        destruct (prepareTransformationArgs v args) as [ctx ca]. simpl in He.
        rewrite He in Ha. rewrite await_Promise_resolve, Hres in Ha.
        now inversion Ha. }
    split; [exact Hst|]. subst st.
    eexists. split.
    + apply (get_new_Flow _ (heap w) (mkFlow (VPromise (Rejected e)) noop true)).
      reflexivity.
    + reflexivity.
Qed.

Lemma executeTransformation_trace (f : callable) ctx callArgs xs w c w' :
  CreateListFromArrayLike callArgs = Some xs ->
  executeTransformation (TFun f) ctx callArgs w = (c, w') ->
  trace w' = trace w ++ [EvTransform ctx xs] /\
  apply_callable f ctx xs (log (EvTransform ctx xs) w) = (c, w').
Proof.
  unfold executeTransformation. intros -> Ha. split; [|exact Ha].
  apply apply_callable_frame in Ha as (_ & Ht & _). exact Ht.
Qed.

(** An immediate stage whose transformer is a function applies it exactly
    once, to the prepared binding and arguments, whether it returns or
    throws. *)
Lemma pipe_sync_calls (w : world) r (c : Flow) (f : callable) args xs res w' :
  heap w !! r = Some c -> isAsync c = false ->
  CreateListFromArrayLike (snd (prepareTransformationArgs (value c) args)) = Some xs ->
  pipe r (TFun f) args w = Some (res, w') ->
  transform_calls (trace w') =
    transform_calls (trace w) ++ [(fst (prepareTransformationArgs (value c) args), xs)].
Proof.
  intros Hr Hm Hxs Hp.
  destruct (executeTransformation (TFun f)
              (fst (prepareTransformationArgs (value c) args))
              (snd (prepareTransformationArgs (value c) args))
              (set_currentValue (value c) w)) as [[x|e] w1] eqn:He.
  - rewrite (pipe_sync_normal w r c _ args _ _ Hr Hm He) in Hp.
    apply (executeTransformation_trace _ _ _ xs) in He as [Ht _]; [|exact Hxs].
    inversion Hp; subst. simpl in *. rewrite Ht, transform_calls_app. reflexivity.
  - rewrite (pipe_sync_thrown w r c _ args e w1 Hr Hm He) in Hp.
    apply (executeTransformation_trace _ _ _ xs) in He as [Ht _]; [|exact Hxs].
    simpl in Ht.
    destruct (apply_callable (errorHandler c) (VFlow r) [e] (log (EvHandler r e) w1))
      as [[y|e'] w2] eqn:Ha;
      apply apply_callable_frame in Ha as (_ & Ht2 & _); simpl in Ht2;
      inversion Hp; subst; simpl;
      rewrite Ht2, Ht, !transform_calls_app; simpl; now rewrite app_nil_r.
Qed.

(** C2.  [delay] on an immediate container returns a container whose mode
    flag is still immediate: its payload is the promise returned by the
    timer transformer, the accessor hands that payload out directly, and a
    following stage applies its transformer to the promise itself, not to
    the settled value. *)
Theorem delay_on_immediate_stays_immediate (w : world) (r : nat) (c : Flow) (ms : Z) :
  heap w !! r = Some c ->
  isAsync c = false ->
  exists w',
    delay r ms w = Some (Normal (length (heap w)), w') /\
    heap w' = heap w ++ [mkFlow (VPromise (await (value c))) noop false] /\
    get (length (heap w)) w' = Some (Normal (VPromise (await (value c))), w') /\
    forall f res w'',
      pipe (length (heap w)) (TFun f) [] w' = Some (res, w'') ->
      transform_calls (trace w'') =
        transform_calls (trace w') ++ [(VNull, [VPromise (await (value c))])].
Proof.
  intros Hr Hm. unfold delay.
  assert (He : executeTransformation (TFun (delay_transformer ms))
                 (fst (prepareTransformationArgs (value c) []))
                 (snd (prepareTransformationArgs (value c) []))
                 (set_currentValue (value c) w)
               = (Normal (VPromise (await (value c))),
                  log (EvTransform VNull [value c]) (set_currentValue (value c) w))).
  { reflexivity. }
  rewrite (pipe_sync_normal w r c _ [] _ _ Hr Hm He).
  eexists. split; [reflexivity|]. simpl. split; [reflexivity|]. split.
  - apply (get_new_Flow _ (heap w) (mkFlow (VPromise (await (value c))) noop false)).
    reflexivity.
  - intros f res w'' Hp.
    eapply (pipe_sync_calls _ _ (mkFlow (VPromise (await (value c))) noop false)
              f [] [VPromise (await (value c))]) in Hp; try reflexivity.
    + exact Hp.
    + simpl. rewrite lookup_app_r by lia. now rewrite Nat.sub_diag.
Qed.

Lemma override_spec_reflect (a : val) :
  truthy a && isValidFunctionCallSpec a = true <-> is_override_spec a.
Proof.
  unfold is_override_spec, isValidFunctionCallSpec. split.
  - intros Hb.
    destruct a as [| |b|n|s|id|items|fs|id k|st|r0]; simpl in Hb;
      try discriminate;
      try (destruct b; discriminate);
      try (destruct (n =? 0); discriminate);
      try (destruct (String.eqb s ""); discriminate).
    simpl. repeat split; try discriminate.
    destruct (default VUndefined (assoc "this" fs)); simpl in Hb;
      try (left; discriminate).
    destruct (default VUndefined (assoc "args" fs)); try discriminate.
    right. eauto.
  - intros (Ht & Hn & Hf).
    destruct a as [| |b|n|s|id|items|fs|id k|st|r0]; simpl in Ht;
      try discriminate; try congruence; simpl in Hf;
      try (destruct Hf as [Hf|[xs Hf]]; congruence).
    simpl.
    destruct Hf as [Hf|[xs Hf]].
    + destruct (default VUndefined (assoc "this" fs)); try reflexivity.
      congruence.
    + rewrite Hf. simpl. apply orb_true_r.
Qed.

Lemma prepare_override (v : val) (args : list val) :
  is_override_spec (nth 0 args VUndefined) ->
  prepareTransformationArgs v args =
    (nullish_or (get_prop (nth 0 args VUndefined) "this") VNull,
     nullish_or (get_prop (nth 0 args VUndefined) "args") (VArray [])).
Proof.
  intros Ho. apply override_spec_reflect in Ho.
  unfold prepareTransformationArgs. now rewrite Ho.
Qed.

Lemma prepare_default (v : val) (args : list val) :
  ~ is_override_spec (nth 0 args VUndefined) ->
  prepareTransformationArgs v args = (VNull, VArray (v :: args)).
Proof.
  intros Hn.
  assert (Hb : truthy (nth 0 args VUndefined)
               && isValidFunctionCallSpec (nth 0 args VUndefined) = false).
  { destruct (truthy (nth 0 args VUndefined)
              && isValidFunctionCallSpec (nth 0 args VUndefined)) eqn:E;
      [|reflexivity].
    exfalso. apply Hn. now apply override_spec_reflect. }
  unfold prepareTransformationArgs. now rewrite Hb.
Qed.

(** A stage whose prepared argument list converts to [xs] applies the
    transformer to it, in either mode. *)
Lemma pipe_applies (w : world) r (c : Flow) (f : callable) args v ctx ca xs :
  heap w !! r = Some c ->
  stage_input c v ->
  prepareTransformationArgs v args = (ctx, ca) ->
  CreateListFromArrayLike ca = Some xs ->
  stage_applies w r c f args v ctx xs.
Proof.
  intros Hr Hin Hprep Hxs. unfold stage_applies, stage_input in *.
  destruct (isAsync c) eqn:Hm.
  - destruct Hin as [Hv _]. rewrite (pipe_async w r c _ args Hr Hm).
    unfold asyncTransform. rewrite await_Promise_resolve, Hv, Hprep.
    unfold executeTransformation. rewrite Hxs. unfold apply_callable. simpl.
    destruct (invoke f ctx xs (user w)) as [[x|e] u1] eqn:Hi.
    + rewrite await_Promise_resolve.
      destruct (await x) as [y|e|] eqn:Hx;
        (eexists; eexists; split; [reflexivity|]; simpl;
         split; [now rewrite transform_calls_app|];
         intros x0 u0 [= <- <-]; rewrite Hx; repeat split).
    + eexists. eexists. split; [reflexivity|]. simpl.
      split; [now rewrite transform_calls_app|]. intros x0 u0 [=].
  - subst v.
    destruct (invoke f ctx xs (user w)) as [cpl u1] eqn:Hi.
    assert (He : executeTransformation (TFun f)
                   (fst (prepareTransformationArgs (value c) args))
                   (snd (prepareTransformationArgs (value c) args))
                   (set_currentValue (value c) w)
                 = (cpl, set_user u1 (log (EvTransform ctx xs)
                                        (set_currentValue (value c) w)))).
    { rewrite Hprep. simpl. unfold executeTransformation, apply_callable.
      rewrite Hxs. simpl. now rewrite Hi. }
    destruct cpl as [x|e].
    + rewrite (pipe_sync_normal w r c _ args _ _ Hr Hm He).
      eexists. eexists. split; [reflexivity|]. simpl.
      split; [now rewrite transform_calls_app|].
      intros x0 u0 [= <- <-]. repeat split.
    + rewrite (pipe_sync_thrown w r c _ args e _ Hr Hm He).
      destruct (apply_callable (errorHandler c) (VFlow r) [e]
                  (log (EvHandler r e)
                     (set_user u1 (log (EvTransform ctx xs)
                                     (set_currentValue (value c) w)))))
        as [[y|e2] w2] eqn:Ha;
        apply apply_callable_frame in Ha as (_ & Ht & _); simpl in Ht;
        (eexists; eexists; split; [reflexivity|]; simpl;
         split; [|intros x0 u0 [=]]);
        rewrite Ht, !transform_calls_app; simpl; now rewrite app_nil_r.
Qed.

(** A stage whose prepared argument list does not convert fails with the
    host's type error before the transformer is applied, in either mode. *)
Lemma pipe_fails_uncalled (w : world) r (c : Flow) (f : callable) args v ctx ca :
  heap w !! r = Some c ->
  stage_input c v ->
  prepareTransformationArgs v args = (ctx, ca) ->
  CreateListFromArrayLike ca = None ->
  stage_fails_uncalled w r c f args TypeError.
Proof.
  intros Hr Hin Hprep Hxs. unfold stage_fails_uncalled, stage_input in *.
  destruct (isAsync c) eqn:Hm.
  - destruct Hin as [Hv _]. rewrite (pipe_async w r c _ args Hr Hm).
    unfold asyncTransform. rewrite await_Promise_resolve, Hv, Hprep.
    unfold executeTransformation. rewrite Hxs.
    eexists. eexists. split; [reflexivity|]. simpl.
    split; [reflexivity|]. split; [discriminate|]. intros _. repeat split.
  - subst v.
    assert (He : sync_stage_throws c (TFun f) args w TypeError
                   (set_currentValue (value c) w)).
    { unfold sync_stage_throws. rewrite Hprep. simpl.
      unfold executeTransformation. now rewrite Hxs. }
    rewrite (pipe_sync_thrown w r c _ args TypeError _ Hr Hm He).
    destruct (apply_callable (errorHandler c) (VFlow r) [TypeError]
                (log (EvHandler r TypeError) (set_currentValue (value c) w)))
      as [[y|e2] w2] eqn:Ha;
      apply apply_callable_frame in Ha as (_ & Ht & _); simpl in Ht;
      (eexists; eexists; split; [reflexivity|]; simpl;
       split; [|split; [intros _|discriminate]]);
      rewrite Ht; rewrite ?transform_calls_app, ?handler_calls_app; simpl;
      now rewrite ?app_nil_r.
Qed.

(** C3, as it holds on the code.  Let [v] be the value the stage works on.
    When the first extra argument is an object with a [this] field or an
    array valued [args] field, [pipe] applies the transformer with that
    [this] as binding (null when absent) to that [args] when it is an array,
    to no argument when it is absent, and more generally to the list the
    host makes of it, [v] not being part of it; but when [args] is there and
    is no argument list, the stage fails with a type error and the
    transformer is not applied.  In every other case [pipe] applies the
    transformer with a null binding to [v] followed by all the extra
    arguments. *)
Theorem call_convention (w : world) (r : nat) (c : Flow) (f : callable)
    (args : list val) (v : val) :
  heap w !! r = Some c ->
  stage_input c v ->
  (is_override_spec (nth 0 args VUndefined) ->
   (forall xs,
      get_prop (nth 0 args VUndefined) "args" = VArray xs ->
      stage_applies w r c f args v
        (nullish_or (get_prop (nth 0 args VUndefined) "this") VNull) xs) /\
   (get_prop (nth 0 args VUndefined) "args" = VUndefined \/
    get_prop (nth 0 args VUndefined) "args" = VNull ->
    stage_applies w r c f args v
      (nullish_or (get_prop (nth 0 args VUndefined) "this") VNull) []) /\
   (forall xs,
      CreateListFromArrayLike (get_prop (nth 0 args VUndefined) "args") = Some xs ->
      stage_applies w r c f args v
        (nullish_or (get_prop (nth 0 args VUndefined) "this") VNull) xs) /\
   (CreateListFromArrayLike (get_prop (nth 0 args VUndefined) "args") = None ->
    stage_fails_uncalled w r c f args TypeError)) /\
  (~ is_override_spec (nth 0 args VUndefined) ->
   stage_applies w r c f args v VNull (v :: args)).
Proof.
  intros Hr Hin. split.
  - intros Ho. pose proof (prepare_override v args Ho) as Hprep.
    split; [|split; [|split]].
    + intros xs Hxs. apply (pipe_applies w r c f args v _ _ xs Hr Hin Hprep).
      now rewrite Hxs.
    + intros Hu. apply (pipe_applies w r c f args v _ _ [] Hr Hin Hprep).
      destruct Hu as [Hu|Hu]; now rewrite Hu.
    + intros xs Hxs. apply (pipe_applies w r c f args v _ _ xs Hr Hin Hprep).
      destruct (get_prop (nth 0 args VUndefined) "args"); exact Hxs.
    + intros Hxs. apply (pipe_fails_uncalled w r c f args v _ _ Hr Hin Hprep).
      destruct (get_prop (nth 0 args VUndefined) "args");
        try exact Hxs; discriminate.
  - intros Hn.
    apply (pipe_applies w r c f args v _ _ (v :: args) Hr Hin
             (prepare_default v args Hn)).
    reflexivity.
Qed.

Lemma determineFinalValue_cases (result original : val) (args : list val) :
  (List.last args VUndefined = FlowContext.returnOriginal ->
   determineFinalValue result original args = original) /\
  (List.last args VUndefined = FlowContext.returnBoth ->
   determineFinalValue result original args = VArray [result; original]) /\
  (List.last args VUndefined <> FlowContext.returnOriginal ->
   List.last args VUndefined <> FlowContext.returnBoth ->
   determineFinalValue result original args = result).
Proof.
  unfold determineFinalValue, FlowContext.returnOriginal, FlowContext.returnBoth,
    FlowContext.returnOriginal_id, FlowContext.returnBoth_id.
  repeat split.
  - intros ->. reflexivity.
  - intros ->. reflexivity.
  - intros H1 H2. destruct (List.last args VUndefined) as [| | | | |id| | | | |];
      try reflexivity.
    simpl. destruct id as [|[|id]]; simpl; try reflexivity; congruence.
Qed.

(** C4.  The last extra argument selects the shape of a stage's result: the
    keep-original sentinel gives the pre-transform value, the return-both
    sentinel gives the pair of the computed result and the pre-transform
    value, anything else gives the computed result.  The shaped value is the
    payload of the new container in immediate mode and settles the new
    pending computation in deferred mode.  With a doubling transformer on
    the seed 5, keep-original resolves to 5 and return-both to (10, 5). *)
Theorem sentinel_result_shaping :
  (forall result original args,
     (List.last args VUndefined = FlowContext.returnOriginal ->
      determineFinalValue result original args = original) /\
     (List.last args VUndefined = FlowContext.returnBoth ->
      determineFinalValue result original args = VArray [result; original]) /\
     (List.last args VUndefined <> FlowContext.returnOriginal ->
      List.last args VUndefined <> FlowContext.returnBoth ->
      determineFinalValue result original args = result)) /\
  (forall w r c t args res w1,
     heap w !! r = Some c -> isAsync c = false ->
     executeTransformation t
       (fst (prepareTransformationArgs (value c) args))
       (snd (prepareTransformationArgs (value c) args))
       (set_currentValue (value c) w) = (Normal res, w1) ->
     exists w',
       pipe r t args w = Some (Normal (length (heap w)), w') /\
       heap w' = heap w ++ [mkFlow (determineFinalValue res (value c) args) noop false]) /\
  (forall w r c t args v res result w1,
     heap w !! r = Some c -> isAsync c = true ->
     await (value c) = Fulfilled v ->
     executeTransformation t
       (fst (prepareTransformationArgs v args))
       (snd (prepareTransformationArgs v args))
       (set_currentValue (value c) w) = (Normal res, w1) ->
     await res = Fulfilled result ->
     exists w',
       pipe r t args w = Some (Normal (length (heap w)), w') /\
       heap w' = heap w ++
         [mkFlow (VPromise (await (determineFinalValue result v args))) noop true]) /\
  (forall u,
     fst <$> (r <- flow (VNum 5) ;;
              r' <- pipe r (TFun double) [FlowContext.returnOriginal] ;;
              get r') (empty_world u)
     = Some (Normal (VNum 5))) /\
  (forall u,
     fst <$> (r <- flow (VNum 5) ;;
              r' <- pipe r (TFun double) [FlowContext.returnBoth] ;;
              get r') (empty_world u)
     = Some (Normal (VArray [VNum 10; VNum 5]))).
Proof.
  split; [exact determineFinalValue_cases|].
  split; [|split; [|split]].
  - intros w r c t args res w1 Hr Hm He.
    rewrite (pipe_sync_normal w r c t args res w1 Hr Hm He).
    eexists. split; reflexivity.
  - intros w r c t args v res result w1 Hr Hm Hv He Hres.
    rewrite (pipe_async w r c t args Hr Hm).
    unfold asyncTransform. rewrite await_Promise_resolve, Hv.
    destruct (prepareTransformationArgs v args) as [ctx ca]. simpl in He.
    rewrite He, await_Promise_resolve, Hres.
    eexists. split; reflexivity.
  - intros u. reflexivity.
  - intros u. reflexivity.
Qed.

(** ** The retry loop *)

Lemma retry_loop_total (v : val) (attempts : Z) (fuel : nat) (i : Z) :
  (Z.to_nat (attempts - i) < fuel)%nat ->
  exists c, retry_loop fuel v attempts i = Some c.
Proof.
  revert i. induction fuel as [|fuel IH]; intros i Hf; [lia|].
  simpl. destruct (i <? attempts) eqn:Hlt; [|eauto].
  apply Z.ltb_lt in Hlt.
  destruct (await (Promise_resolve v)); eauto.
  destruct (i =? attempts - 1); eauto.
  apply IH. lia.
Qed.

(** The fuel given to the loop by [retry] is always enough. *)
Lemma retry_fuel_enough (v : val) (attempts : Z) :
  exists c, retry_loop (retry_fuel attempts) v attempts 0 = Some c.
Proof. apply retry_loop_total. unfold retry_fuel. lia. Qed.

Lemma retry_loop_zero (v : val) (attempts : Z) :
  attempts <= 0 ->
  retry_loop (retry_fuel attempts) v attempts 0 = Some (Normal VUndefined).
Proof.
  intros Ha. unfold retry_fuel. simpl.
  destruct (0 <? attempts) eqn:Hlt; [|reflexivity].
  apply Z.ltb_lt in Hlt. lia.
Qed.

Lemma retry_loop_fulfilled (v x : val) (attempts : Z) :
  0 < attempts -> await v = Fulfilled x ->
  retry_loop (retry_fuel attempts) v attempts 0 = Some (Normal x).
Proof.
  intros Ha Hv. unfold retry_fuel. simpl.
  apply Z.ltb_lt in Ha. rewrite Ha, await_Promise_resolve, Hv. reflexivity.
Qed.

(** Handed a rejected promise, the loop goes through every remaining
    iteration and throws the rejection at the last one: it needs as much
    fuel as there are iterations left. *)
Lemma retry_loop_rejected (v e : val) (attempts : Z) (fuel : nat) (i : Z) :
  await v = Rejected e ->
  0 <= i < attempts ->
  retry_loop fuel v attempts i =
    if (fuel <? Z.to_nat (attempts - i))%nat then None else Some (Thrown e).
Proof.
  intros Hv. revert i. induction fuel as [|fuel IH]; intros i Hi.
  - simpl. destruct (0 <? Z.to_nat (attempts - i))%nat eqn:E; [reflexivity|].
    apply Nat.ltb_ge in E. lia.
  - simpl. destruct (i <? attempts) eqn:Hlt; [|apply Z.ltb_ge in Hlt; lia].
    rewrite await_Promise_resolve, Hv.
    destruct (i =? attempts - 1) eqn:Hlast.
    + apply Z.eqb_eq in Hlast.
      destruct (S fuel <? Z.to_nat (attempts - i))%nat eqn:E; [|reflexivity].
      apply Nat.ltb_lt in E. lia.
    + apply Z.eqb_neq in Hlast. rewrite IH by lia.
      destruct (fuel <? Z.to_nat (attempts - (i + 1)))%nat eqn:E1;
        destruct (S fuel <? Z.to_nat (attempts - i))%nat eqn:E2; try reflexivity.
      * apply Nat.ltb_lt in E1. apply Nat.ltb_ge in E2. lia.
      * apply Nat.ltb_ge in E1. apply Nat.ltb_lt in E2. lia.
Qed.

Lemma invoke_retry (this v : val) (u : UserState) (attempts : Z) out :
  retry_loop (retry_fuel attempts) v attempts 0 = Some out ->
  invoke (retry_transformer attempts) this [v] u =
    (Normal (VPromise (match out with
                       | Normal x => await x
                       | Thrown e => Rejected e
                       end)), u).
Proof.
  intros Hl. unfold invoke, retry_transformer. cbn [fn_body fn_async nth].
  rewrite Hl. reflexivity.
Qed.

(** C5, as it holds on the code.  On a deferred container whose payload is
    rejected with [e], [retry] with any number of attempts returns a
    deferred container whose pending computation is rejected with the same
    [e].  The retry transformer is not applied at all, no transformer and no
    handler runs, and the user state is untouched: nothing upstream is
    invoked again. *)
Theorem retry_on_rejected_deferred (w : world) (r : nat) (c : Flow) (e : val)
    (attempts : Z) :
  heap w !! r = Some c ->
  isAsync c = true ->
  await (value c) = Rejected e ->
  exists w',
    retry r attempts w = Some (Normal (length (heap w)), w') /\
    heap w' = heap w ++ [mkFlow (VPromise (Rejected e)) noop true] /\
    trace w' = trace w /\
    user w' = user w /\
    rejects_with w' (length (heap w)) e.
Proof.
  intros Hr Hm Hv. unfold retry.
  rewrite (pipe_async w r c _ [] Hr Hm).
  unfold asyncTransform. rewrite await_Promise_resolve, Hv.
  eexists. split; [reflexivity|]. simpl. repeat split.
  eexists. split.
  - apply (get_new_Flow _ (heap w) (mkFlow (VPromise (Rejected e)) noop true)).
    reflexivity.
  - reflexivity.
Qed.

(** X18.  The attempt loop does meet a rejection when the container is
    immediate and its payload is a rejected promise.  For a whole number of
    attempts, from 1 to 2^53 (the range in which the loop counter and
    [attempts - 1] are exact), the retry transformer is applied once to that
    promise, its loop runs [attempts] iterations and the last one throws, so
    that the new payload is rejected with the same error.  (A fractional
    number of attempts is not an integer: it is outside this statement.) *)
Lemma retry_on_rejected_immediate (w : world) (r : nat) (c : Flow) (e : val)
    (attempts : Z) :
  heap w !! r = Some c ->
  isAsync c = false ->
  await (value c) = Rejected e ->
  1 <= attempts <= 2 ^ 53 ->
  exists w',
    retry r attempts w = Some (Normal (length (heap w)), w') /\
    heap w' = heap w ++ [mkFlow (VPromise (Rejected e)) noop false] /\
    trace w' = trace w ++ [EvTransform VNull [value c]] /\
    retry_loop (Z.to_nat attempts) (value c) attempts 0 = Some (Thrown e) /\
    retry_loop (Z.to_nat attempts - 1) (value c) attempts 0 = None.
Proof.
  intros Hr Hm Hv [Ha _]. unfold retry.
  assert (Hl : retry_loop (retry_fuel attempts) (value c) attempts 0 = Some (Thrown e)).
  { rewrite (retry_loop_rejected _ e) by (auto; lia).
    unfold retry_fuel. rewrite Z.sub_0_r.
    destruct (S (Z.to_nat attempts) <? Z.to_nat attempts)%nat eqn:E; [|reflexivity].
    apply Nat.ltb_lt in E. lia. }
  assert (He : executeTransformation (TFun (retry_transformer attempts))
                 (fst (prepareTransformationArgs (value c) []))
                 (snd (prepareTransformationArgs (value c) []))
                 (set_currentValue (value c) w)
               = (Normal (VPromise (Rejected e)),
                  log (EvTransform VNull [value c]) (set_currentValue (value c) w))).
  { change (executeTransformation (TFun (retry_transformer attempts))
              (fst (prepareTransformationArgs (value c) []))
              (snd (prepareTransformationArgs (value c) []))
              (set_currentValue (value c) w))
      with (apply_callable (retry_transformer attempts) VNull [value c]
              (log (EvTransform VNull [value c]) (set_currentValue (value c) w))).
    unfold apply_callable. rewrite (invoke_retry _ _ _ _ _ Hl). reflexivity. }
  rewrite (pipe_sync_normal w r c _ [] _ _ Hr Hm He).
  eexists. split; [reflexivity|]. simpl. repeat split.
  - rewrite (retry_loop_rejected _ e) by (auto; lia). rewrite Z.sub_0_r.
    now rewrite Nat.ltb_irrefl.
  - rewrite (retry_loop_rejected _ e) by (auto; lia). rewrite Z.sub_0_r.
    destruct (Z.to_nat attempts - 1 <? Z.to_nat attempts)%nat eqn:E; [reflexivity|].
    apply Nat.ltb_ge in E. lia.
Qed.

(** C10, as it holds on the code.  [retry(0)] resolves to undefined on
    every immediate container and on every deferred container whose payload
    is fulfilled; on a deferred container whose payload is rejected it
    resolves to that rejection instead. *)
Theorem retry_zero (w : world) (r : nat) (c : Flow) :
  heap w !! r = Some c ->
  exists w',
    retry r 0 w = Some (Normal (length (heap w)), w') /\
    (isAsync c = false -> resolves_to w' (length (heap w)) VUndefined) /\
    (forall v, isAsync c = true -> await (value c) = Fulfilled v ->
               resolves_to w' (length (heap w)) VUndefined) /\
    (forall e, isAsync c = true -> await (value c) = Rejected e ->
               rejects_with w' (length (heap w)) e).
Proof.
  intros Hr. unfold retry. destruct (isAsync c) eqn:Hm.
  - rewrite (pipe_async w r c _ [] Hr Hm).
    unfold asyncTransform. rewrite await_Promise_resolve.
    destruct (await (value c)) as [v|e|] eqn:Hv.
    + simpl. eexists. split; [reflexivity|].
      split; [discriminate|]. split; [|discriminate].
      intros v' _ _. eexists. split.
      * eapply (get_new_Flow _ (heap w)). reflexivity.
      * reflexivity.
    + eexists. split; [reflexivity|].
      split; [discriminate|]. split; [discriminate|].
      intros e' _ [= <-]. eexists. split.
      * eapply (get_new_Flow _ (heap w)). reflexivity.
      * reflexivity.
    + eexists. split; [reflexivity|].
      split; [discriminate|]. split; discriminate.
  - assert (He : executeTransformation (TFun (retry_transformer 0))
                   (fst (prepareTransformationArgs (value c) []))
                   (snd (prepareTransformationArgs (value c) []))
                   (set_currentValue (value c) w)
                 = (Normal (VPromise (Fulfilled VUndefined)),
                    log (EvTransform VNull [value c]) (set_currentValue (value c) w))).
    { reflexivity. }
    rewrite (pipe_sync_normal w r c _ [] _ _ Hr Hm He).
    eexists. split; [reflexivity|].
    split; [|split; discriminate].
    intros _. eexists. split.
    + eapply (get_new_Flow _ (heap w)). reflexivity.
    + reflexivity.
Qed.

(** ** What every stage does to the store and to the trace *)

Lemma pipe_outcome (w : world) r t args res w' :
  pipe r t args w = Some (res, w') ->
  exists c, heap w !! r = Some c /\
    ((exists c', res = Normal (length (heap w)) /\
                 heap w' = heap w ++ [c'] /\
                 errorHandler c' = noop /\ isAsync c' = isAsync c) \/
     (exists e, res = Thrown e /\ heap w' = heap w /\ isAsync c = false)) /\
    (length (transform_calls (trace w')) <= length (transform_calls (trace w)) + 1)%nat.
Proof.
  intros Hp. destruct (heap w !! r) as [c|] eqn:Hr.
  2:{ unfold pipe, bind, this_flow in Hp. rewrite Hr in Hp. discriminate. }
  exists c. split; [reflexivity|].
  destruct (isAsync c) eqn:Hm.
  - rewrite (pipe_async w r c t args Hr Hm) in Hp.
    destruct (asyncTransform c t args (set_currentValue (value c) w))
      as [st w1] eqn:Ha.
    apply asyncTransform_frame in Ha as (_ & _ & Ht). simpl in Ht.
    inversion Hp; subst. simpl. split.
    + left. eexists. repeat split.
    + now apply transform_calls_step.
  - destruct (executeTransformation t
                (fst (prepareTransformationArgs (value c) args))
                (snd (prepareTransformationArgs (value c) args))
                (set_currentValue (value c) w)) as [[x|e] w1] eqn:He.
    + rewrite (pipe_sync_normal w r c t args x w1 Hr Hm He) in Hp.
      apply executeTransformation_frame in He as (_ & _ & Ht). simpl in Ht.
      inversion Hp; subst. simpl. split.
      * left. eexists. repeat split.
      * apply transform_calls_step. destruct Ht as [|[xs ?]]; eauto.
    + rewrite (pipe_sync_thrown w r c t args e w1 Hr Hm He) in Hp.
      apply executeTransformation_frame in He as (Hh & _ & Ht). simpl in Hh, Ht.
      assert (Hlen : (length (transform_calls (trace w1))
                      <= length (transform_calls (trace w)) + 1)%nat).
      { apply transform_calls_step. destruct Ht as [|[xs ?]]; eauto. }
      destruct (apply_callable (errorHandler c) (VFlow r) [e] (log (EvHandler r e) w1))
        as [[y|e'] w2] eqn:Ha;
        apply apply_callable_frame in Ha as (Hh2 & Ht2 & _); simpl in Hh2, Ht2;
        inversion Hp; subst; simpl.
      * split; [left; eexists; repeat split|].
        rewrite Ht2, transform_calls_app. simpl. now rewrite app_nil_r.
      * split; [right; exists e'; repeat split; congruence|].
        rewrite Ht2, transform_calls_app. simpl. now rewrite app_nil_r.
Qed.

Lemma chain_is_pipe (r : nat) (op : chaining) :
  exists t args, chain r op = pipe r t args.
Proof. destruct op; simpl; eauto. Qed.

Lemma chain_outcome (w : world) r op res w' :
  chain r op w = Some (res, w') ->
  exists c, heap w !! r = Some c /\
    ((exists c', res = Normal (length (heap w)) /\
                 heap w' = heap w ++ [c'] /\
                 errorHandler c' = noop /\ isAsync c' = isAsync c) \/
     (exists e, res = Thrown e /\ heap w' = heap w /\ isAsync c = false)) /\
    (length (transform_calls (trace w')) <= length (transform_calls (trace w)) + 1)%nat.
Proof.
  destruct (chain_is_pipe r op) as (t & args & ->). apply pipe_outcome.
Qed.

Lemma get_outcome (w : world) r res w' :
  get r w = Some (res, w') ->
  w' = w /\ exists c, heap w !! r = Some c /\
    res = Normal (if isAsync c then Promise_resolve (value c) else value c).
Proof.
  unfold get, bind, this_flow. destruct (heap w !! r) as [c|]; [|discriminate].
  intros Hg.
  assert (Hres : res = Normal (if isAsync c then Promise_resolve (value c) else value c)
                 /\ w' = w)
    by (destruct (isAsync c); inversion Hg; auto).
  destruct Hres as [-> ->]. eauto.
Qed.

Lemma catch_outcome (w : world) r h res w' :
  catch r h w = Some (res, w') ->
  exists c, heap w !! r = Some c /\ res = Normal r /\
    w' = set_heap (<[r := mkFlow (value c) h (isAsync c)]> (heap w)) w.
Proof.
  unfold catch, bind, this_flow, modify, ret.
  destruct (heap w !! r) as [c|]; [|discriminate].
  intros [= <- <-]. eauto.
Qed.

(** No operation changes the payload or the mode of an existing container,
    and only a chaining operation can apply a transformer, at most once. *)
Lemma step_invariant (r : nat) (o : operation) (w w' : world) :
  step r o w = Some w' ->
  (forall r0 c0, heap w !! r0 = Some c0 ->
     exists c0', heap w' !! r0 = Some c0' /\
                 value c0' = value c0 /\ isAsync c0' = isAsync c0) /\
  (length (transform_calls (trace w'))
   <= length (transform_calls (trace w)) + stages [(r, o)])%nat.
Proof.
  destruct o as [|h|op]; simpl.
  - destruct (get r w) as [[res w1]|] eqn:Hg; [|discriminate].
    intros [= <-]. apply get_outcome in Hg as [-> _].
    split; [eauto|lia].
  - destruct (catch r h w) as [[res w1]|] eqn:Hc; [|discriminate].
    intros [= <-]. apply catch_outcome in Hc as (c & Hr & _ & ->). simpl.
    split; [|lia].
    intros r0 c0 H0. destruct (decide (r = r0)) as [<-|Hne].
    + rewrite list_lookup_insert_eq by (eapply lookup_lt_Some; eauto).
      eexists. split; [reflexivity|]. simpl. split; congruence.
    + rewrite list_lookup_insert_ne by auto. eauto.
  - destruct (chain r op w) as [[res w1]|] eqn:Hc; [|discriminate].
    intros [= <-]. apply chain_outcome in Hc as (c & Hr & Hheap & Hlen).
    split; [|exact Hlen].
    intros r0 c0 H0.
    destruct Hheap as [(c' & _ & -> & _)|(e & _ & -> & _)]; [|eauto].
    exists c0. split; [|auto]. now apply lookup_app_l_Some.
Qed.

Lemma run_invariant (prog : list (nat * operation)) (w w' : world) :
  run prog w = Some w' ->
  (forall r0 c0, heap w !! r0 = Some c0 ->
     exists c0', heap w' !! r0 = Some c0' /\
                 value c0' = value c0 /\ isAsync c0' = isAsync c0) /\
  (length (transform_calls (trace w'))
   <= length (transform_calls (trace w)) + stages prog)%nat.
Proof.
  revert w. induction prog as [|[r o] prog IH]; intros w; simpl.
  - intros [= <-]. split; [eauto|lia].
  - destruct (step r o w) as [w1|] eqn:Hs; [|discriminate].
    intros Hrun. apply step_invariant in Hs as [Hs1 Hs2].
    apply IH in Hrun as [Hr1 Hr2]. split.
    + intros r0 c0 H0. destruct (Hs1 r0 c0 H0) as (c1 & H1 & Hv1 & Hm1).
      destruct (Hr1 r0 c1 H1) as (c2 & H2 & Hv2 & Hm2).
      exists c2. split; [exact H2|]. split; congruence.
    + simpl in Hs2. destruct o; simpl; lia.
Qed.

(** C6.  [catch] returns the reference it was called on; in the store only
    the handler field of that container changes, its payload and mode and
    every other container stay as they were, and nothing else in the world
    changes.  A container produced from it by any chaining operation is a
    different, fresh container whose handler is the no-op. *)
Theorem catch_registers_in_place (w : world) (r : nat) (c : Flow) (h : callable) :
  heap w !! r = Some c ->
  exists w',
    catch r h w = Some (Normal r, w') /\
    heap w' = <[r := mkFlow (value c) h (isAsync c)]> (heap w) /\
    heap w' !! r = Some (mkFlow (value c) h (isAsync c)) /\
    (forall r', r' <> r -> heap w' !! r' = heap w !! r') /\
    user w' = user w /\ currentValue w' = currentValue w /\ trace w' = trace w /\
    (forall op r2 w2,
       chain r op w' = Some (Normal r2, w2) ->
       r2 <> r /\
       heap w2 !! r = Some (mkFlow (value c) h (isAsync c)) /\
       exists c2, heap w2 !! r2 = Some c2 /\ errorHandler c2 = noop).
Proof.
  intros Hr.
  assert (Hlt : (r < length (heap w))%nat) by (eapply lookup_lt_Some; eauto).
  assert (Hnew : <[r := mkFlow (value c) h (isAsync c)]> (heap w) !! r
                 = Some (mkFlow (value c) h (isAsync c)))
    by (now apply list_lookup_insert_eq).
  eexists. split.
  { unfold catch, bind, this_flow, modify, ret. rewrite Hr. reflexivity. }
  simpl. split; [reflexivity|]. split; [exact Hnew|].
  split; [intros r' Hne; now apply list_lookup_insert_ne|].
  repeat (split; [reflexivity|]).
  intros op r2 w2 Hc.
  apply chain_outcome in Hc as (c0 & H0 & Hheap & _). simpl in *.
  destruct Hheap as [(c' & [= ->] & Hh & Hnoop & _)|(e & [=] & _)].
  rewrite length_insert. split; [lia|]. rewrite Hh. split.
  - now apply lookup_app_l_Some.
  - exists c'. split; [|exact Hnoop].
    rewrite lookup_app_r by (rewrite length_insert; lia).
    rewrite length_insert, Nat.sub_diag. reflexivity.
Qed.

Lemma deferred_seed_reflect (v : val) :
  instanceof_Promise v
  || (String.eqb (typeof v) "function" && is_AsyncFunction v) = true
  <-> deferred_seed v.
Proof.
  unfold deferred_seed. split.
  - destruct v as [| | | | | | | |id k|st|]; simpl; try discriminate.
    + intros ->. right. eauto.
    + intros _. left. eauto.
  - intros [[st ->]|[id ->]]; reflexivity.
Qed.

(** C7.  The factory stores the seed in a fresh container with the no-op
    handler; the container is deferred when the seed is a promise or a
    function declared [async], and immediate for every other seed.  Whatever
    operations are performed afterwards, on whatever containers, the mode
    and the payload of that container stay the same; and a container made by
    a chaining operation takes the mode of its source, whatever its own
    payload is. *)
Theorem factory_classification (v : val) (w : world) :
  exists w' c,
    flow v w = Some (Normal (length (heap w)), w') /\
    heap w' = heap w ++ [c] /\
    value c = v /\ errorHandler c = noop /\
    (deferred_seed v -> isAsync c = true) /\
    (~ deferred_seed v -> isAsync c = false) /\
    (forall prog w'',
       run prog w' = Some w'' ->
       exists c', heap w'' !! length (heap w) = Some c' /\
                  isAsync c' = isAsync c /\ value c' = value c) /\
    (forall w1 r op r2 w2,
       chain r op w1 = Some (Normal r2, w2) ->
       exists c1 c2, heap w1 !! r = Some c1 /\ heap w2 !! r2 = Some c2 /\
                     isAsync c2 = isAsync c1).
Proof.
  eexists. eexists. split; [reflexivity|]. simpl. split; [reflexivity|].
  split; [reflexivity|]. split; [reflexivity|]. simpl.
  split; [|split; [|split]].
  - intros Hd. now apply deferred_seed_reflect.
  - intros Hn.
    destruct (instanceof_Promise v
              || (String.eqb (typeof v) "function" && is_AsyncFunction v)) eqn:E;
      [|reflexivity].
    exfalso. apply Hn. now apply deferred_seed_reflect.
  - intros prog w'' Hrun.
    apply run_invariant in Hrun as [Hinv _].
    destruct (Hinv (length (heap w))
                (mkFlow v noop
                   (instanceof_Promise v
                    || (String.eqb (typeof v) "function" && is_AsyncFunction v))))
      as (c' & Hc' & Hv & Hm).
    + simpl. rewrite lookup_app_r by lia. now rewrite Nat.sub_diag.
    + exists c'. auto.
  - intros w1 r op r2 w2 Hc.
    apply chain_outcome in Hc as (c1 & H1 & Hheap & _).
    destruct Hheap as [(c2 & [= ->] & Hh & _ & Hm)|(e & [=] & _)].
    exists c1, c2. split; [exact H1|]. split; [|exact Hm].
    rewrite Hh, lookup_app_r by lia. now rewrite Nat.sub_diag.
Qed.

(** C8.  The accessor leaves the world as it is and gives the same value
    when called again, at once or after any sequence of operations on any
    containers; and however many accessor calls such a sequence holds, the
    number of transformer applications it adds is at most its number of
    stages. *)
Theorem resolution_is_idempotent (w : world) (r : nat) (c : Flow) :
  heap w !! r = Some c ->
  exists g,
    get r w = Some (Normal g, w) /\
    (a <- get r ;; b <- get r ;; ret (a, b)) w = Some (Normal (g, g), w) /\
    (forall prog w',
       run prog w = Some w' ->
       get r w' = Some (Normal g, w') /\
       (length (transform_calls (trace w'))
        <= length (transform_calls (trace w)) + stages prog)%nat) /\
    (forall op res w',
       chain r op w = Some (res, w') ->
       (length (transform_calls (trace w'))
        <= length (transform_calls (trace w)) + 1)%nat).
Proof.
  intros Hr.
  assert (Hg : forall w0 c0, heap w0 !! r = Some c0 ->
               get r w0 = Some (Normal (if isAsync c0 then Promise_resolve (value c0)
                                        else value c0), w0)).
  { intros w0 c0 H0. unfold get, bind, this_flow. rewrite H0.
    destruct (isAsync c0); reflexivity. }
  exists (if isAsync c then Promise_resolve (value c) else value c).
  split; [now apply Hg|]. split; [|split].
  - unfold bind at 1. rewrite (Hg w c Hr).
    unfold bind at 1. rewrite (Hg w c Hr). reflexivity.
  - intros prog w' Hrun. apply run_invariant in Hrun as [Hinv Hlen].
    split; [|exact Hlen].
    destruct (Hinv r c Hr) as (c' & Hc' & Hv & Hm).
    rewrite (Hg w' c' Hc'), Hv, Hm. reflexivity.
  - intros op res w' Hc. now apply chain_outcome in Hc as (_ & _ & _ & Hlen).
Qed.

Lemma pipe_sync_total (w : world) r (c : Flow) t args :
  heap w !! r = Some c -> isAsync c = false ->
  exists res w', pipe r t args w = Some (res, w').
Proof.
  intros Hr Hm.
  destruct (executeTransformation t
              (fst (prepareTransformationArgs (value c) args))
              (snd (prepareTransformationArgs (value c) args))
              (set_currentValue (value c) w)) as [[x|e] w1] eqn:He.
  - rewrite (pipe_sync_normal w r c t args x w1 Hr Hm He). eauto.
  - rewrite (pipe_sync_thrown w r c t args e w1 Hr Hm He).
    destruct (apply_callable (errorHandler c) (VFlow r) [e] (log (EvHandler r e) w1))
      as [[y|e'] w2]; eauto.
Qed.

(** C9.  With a sentinel as the only extra argument the default call
    convention applies: the transformer is applied, with a null binding, to
    the wrapped value followed by the sentinel itself, and the same sentinel
    shapes the result of the stage. *)
Theorem sentinel_is_positional (w : world) (r : nat) (c : Flow) (f : callable)
    (s : val) :
  heap w !! r = Some c ->
  s = FlowContext.returnOriginal \/ s = FlowContext.returnBoth ->
  (isAsync c = false ->
   (exists res w',
      pipe r (TFun f) [s] w = Some (res, w') /\
      transform_calls (trace w') =
        transform_calls (trace w) ++ [(VNull, [value c; s])]) /\
   (forall x u',
      invoke f VNull [value c; s] (user w) = (Normal x, u') ->
      exists w',
        pipe r (TFun f) [s] w = Some (Normal (length (heap w)), w') /\
        heap w' = heap w ++
          [mkFlow (if strict_eq_symbol s FlowContext.returnOriginal_id
                   then value c else VArray [x; value c]) noop false])) /\
  (isAsync c = true ->
   forall v, await (value c) = Fulfilled v ->
   (exists w',
      pipe r (TFun f) [s] w = Some (Normal (length (heap w)), w') /\
      transform_calls (trace w') =
        transform_calls (trace w) ++ [(VNull, [v; s])]) /\
   (forall res x u',
      invoke f VNull [v; s] (user w) = (Normal res, u') ->
      await res = Fulfilled x ->
      exists w',
        pipe r (TFun f) [s] w = Some (Normal (length (heap w)), w') /\
        heap w' = heap w ++
          [mkFlow (VPromise (await (if strict_eq_symbol s FlowContext.returnOriginal_id
                                    then v else VArray [x; v]))) noop true])).
Proof.
  intros Hr Hs.
  assert (Hprep : forall v0, prepareTransformationArgs v0 [s] = (VNull, VArray [v0; s]))
    by (intros v0; destruct Hs as [->| ->]; reflexivity).
  assert (Hshape : forall x v0,
            determineFinalValue x v0 [s] =
            if strict_eq_symbol s FlowContext.returnOriginal_id
            then v0 else VArray [x; v0])
    by (intros x v0; destruct Hs as [->| ->]; reflexivity).
  split.
  - intros Hm. split.
    + destruct (pipe_sync_total w r c (TFun f) [s] Hr Hm) as (res & w' & Hp).
      exists res, w'. split; [exact Hp|].
      apply (pipe_sync_calls w r c f [s] [value c; s] res w' Hr Hm) in Hp.
      * rewrite Hp, Hprep. reflexivity.
      * rewrite Hprep. reflexivity.
    + intros x u' Hinv.
      assert (He : executeTransformation (TFun f)
                     (fst (prepareTransformationArgs (value c) [s]))
                     (snd (prepareTransformationArgs (value c) [s]))
                     (set_currentValue (value c) w)
                   = (Normal x,
                      set_user u' (log (EvTransform VNull [value c; s])
                                     (set_currentValue (value c) w)))).
      { rewrite Hprep. unfold executeTransformation, apply_callable. simpl.
        rewrite Hinv. reflexivity. }
      rewrite (pipe_sync_normal w r c _ [s] _ _ Hr Hm He).
      eexists. split; [reflexivity|]. simpl. now rewrite Hshape.
  - intros Hm v Hv.
    rewrite (pipe_async w r c _ [s] Hr Hm).
    unfold asyncTransform. rewrite await_Promise_resolve, Hv, Hprep.
    unfold executeTransformation, apply_callable. simpl.
    destruct (invoke f VNull [v; s] (user w)) as [[res|e] u1] eqn:Hinv.
    + split.
      * destruct (await (Promise_resolve res));
          (eexists; split; [reflexivity|]; simpl;
           rewrite transform_calls_app; reflexivity).
      * intros res0 x u' [= <- <-] Hres.
        rewrite await_Promise_resolve, Hres.
        eexists. split; [reflexivity|]. simpl. now rewrite Hshape.
    + split.
      * eexists. split; [reflexivity|]. simpl.
        rewrite transform_calls_app. reflexivity.
      * intros res0 x u' [=].
Qed.

End Properties.

(** * The operators and the engine beyond the stated claims *)

Section Operators.
Context `{H : Host}.
Local Open Scope flow_scope.

Lemma await_plain (x : val) : instanceof_Promise x = false -> await x = Fulfilled x.
Proof. destruct x; simpl; try reflexivity. discriminate. Qed.

(** A function transformer without extra arguments, on an immediate
    container: what the execution step gives. *)
Lemma execute_fun_sync (w : world) (c : Flow) (f : callable) cpl u' :
  invoke f VNull [value c] (user w) = (cpl, u') ->
  executeTransformation (TFun f)
    (fst (prepareTransformationArgs (value c) []))
    (snd (prepareTransformationArgs (value c) []))
    (set_currentValue (value c) w)
  = (cpl, set_user u' (log (EvTransform VNull [value c])
                         (set_currentValue (value c) w))).
Proof.
  intros Hi. unfold executeTransformation, apply_callable. simpl.
  rewrite Hi. reflexivity.
Qed.

Lemma pipe_fun_sync_normal (w : world) r (c : Flow) (f : callable) x u' :
  heap w !! r = Some c -> isAsync c = false ->
  invoke f VNull [value c] (user w) = (Normal x, u') ->
  pipe r (TFun f) [] w =
    Some (Normal (length (heap w)),
          set_heap (heap w ++ [mkFlow x noop false])
            (set_user u' (log (EvTransform VNull [value c])
                            (set_currentValue (value c) w)))).
Proof.
  intros Hr Hm Hi.
  rewrite (pipe_sync_normal w r c _ [] _ _ Hr Hm (execute_fun_sync w c f _ _ Hi)).
  reflexivity.
Qed.

Lemma pipe_fun_async (w : world) r (c : Flow) (f : callable) v cpl u' :
  heap w !! r = Some c -> isAsync c = true ->
  await (value c) = Fulfilled v ->
  invoke f VNull [v] (user w) = (cpl, u') ->
  pipe r (TFun f) [] w =
    Some (Normal (length (heap w)),
          set_heap (heap w ++ [mkFlow (VPromise (stage_settlement cpl)) noop true])
            (set_user u' (log (EvTransform VNull [v])
                            (set_currentValue (value c) w)))).
Proof.
  intros Hr Hm Hv Hi. rewrite (pipe_async w r c _ [] Hr Hm).
  unfold asyncTransform. rewrite await_Promise_resolve, Hv.
  unfold executeTransformation, apply_callable. simpl. rewrite Hi.
  destruct cpl as [res|e]; [|reflexivity].
  rewrite await_Promise_resolve. simpl.
  destruct (await res); reflexivity.
Qed.

Lemma pipe_async_unfulfilled (w : world) r (c : Flow) t args :
  heap w !! r = Some c -> isAsync c = true ->
  (forall v, await (value c) <> Fulfilled v) ->
  pipe r t args w =
    Some (Normal (length (heap w)),
          set_heap (heap w ++ [mkFlow (VPromise (await (value c))) noop true])
            (set_currentValue (value c) w)).
Proof.
  intros Hr Hm Hv. rewrite (pipe_async w r c t args Hr Hm).
  unfold asyncTransform. rewrite await_Promise_resolve.
  destruct (await (value c)) as [v|e|]; [|reflexivity|reflexivity].
  now destruct (Hv v).
Qed.

(** X1.  A deferred container whose payload is rejected, or never settles,
    is passed through by every chaining operation: the new container is
    deferred with the same settlement, no transformer and no handler is
    applied and the user state is as before. *)
Theorem unfulfilled_payload_skips_every_stage (w : world) (r : nat) (c : Flow)
    (op : chaining) :
  heap w !! r = Some c ->
  isAsync c = true ->
  (forall v, await (value c) <> Fulfilled v) ->
  chain r op w =
    Some (Normal (length (heap w)),
          set_heap (heap w ++ [mkFlow (VPromise (await (value c))) noop true])
            (set_currentValue (value c) w)).
Proof.
  intros Hr Hm Hv. destruct (chain_is_pipe r op) as (t & args & ->).
  now apply pipe_async_unfulfilled.
Qed.

(** X2.  [pipe] ends by throwing only in one way: the container is
    immediate, the stage raised some [e], and the handler of the container,
    applied to [e], threw itself; what [pipe] throws is what the handler
    threw, and no container has been added. *)
Theorem pipe_throws_only_what_the_handler_throws (w : world) (r : nat)
    (t : transformer) (args : list val) (e' : val) (w' : world) :
  pipe r t args w = Some (Thrown e', w') ->
  exists c e w1,
    heap w !! r = Some c /\ isAsync c = false /\
    sync_stage_throws c t args w e w1 /\
    invoke (errorHandler c) (VFlow r) [e] (user w1) = (Thrown e', user w') /\
    heap w' = heap w /\
    handler_calls (trace w') = handler_calls (trace w) ++ [(r, e)].
Proof.
  intros Hp. destruct (heap w !! r) as [c|] eqn:Hr.
  2:{ unfold pipe, bind, this_flow in Hp. rewrite Hr in Hp. discriminate. }
  destruct (isAsync c) eqn:Hm.
  { rewrite (pipe_async w r c t args Hr Hm) in Hp.
    destruct (asyncTransform c t args (set_currentValue (value c) w)). discriminate. }
  destruct (executeTransformation t
              (fst (prepareTransformationArgs (value c) args))
              (snd (prepareTransformationArgs (value c) args))
              (set_currentValue (value c) w)) as [[x|e] w1] eqn:He.
  { rewrite (pipe_sync_normal w r c t args x w1 Hr Hm He) in Hp. discriminate. }
  rewrite (pipe_sync_thrown w r c t args e w1 Hr Hm He) in Hp.
  exists c, e, w1. split; [reflexivity|]. split; [exact Hm|]. split; [exact He|].
  apply executeTransformation_frame in He as (Hh & _ & Ht). simpl in Hh, Ht.
  unfold apply_callable in Hp. simpl in Hp.
  destruct (invoke (errorHandler c) (VFlow r) [e] (user w1)) as [[y|e2] u2];
    inversion Hp; subst. simpl.
  split; [reflexivity|]. split; [exact Hh|].
  rewrite handler_calls_app. simpl. f_equal.
  apply handler_calls_transform_step. destruct Ht as [|[xs ?]]; eauto.
Qed.

(** X3.  On a container whose handler is still the no-op, every chaining
    operation returns a new container, whose handler is the no-op again:
    a chain in which [catch] is never called never throws. *)
Theorem chain_without_catch_never_throws (w : world) (r : nat) (c : Flow)
    (op : chaining) :
  heap w !! r = Some c ->
  errorHandler c = noop ->
  exists w' c',
    chain r op w = Some (Normal (length (heap w)), w') /\
    heap w' = heap w ++ [c'] /\
    errorHandler c' = noop.
Proof.
  intros Hr Hn. destruct (chain_is_pipe r op) as (t & args & ->).
  destruct (isAsync c) eqn:Hm.
  - rewrite (pipe_async w r c t args Hr Hm).
    destruct (asyncTransform c t args (set_currentValue (value c) w))
      as [st w1] eqn:Ha.
    apply asyncTransform_frame in Ha as (Hh & _ & _). simpl in Hh.
    eexists. eexists. split; [reflexivity|]. simpl. split; reflexivity.
  - destruct (executeTransformation t
                (fst (prepareTransformationArgs (value c) args))
                (snd (prepareTransformationArgs (value c) args))
                (set_currentValue (value c) w)) as [[x|e] w1] eqn:He.
    + rewrite (pipe_sync_normal w r c t args x w1 Hr Hm He).
      eexists. eexists. split; [reflexivity|]. simpl. split; reflexivity.
    + rewrite (pipe_sync_thrown w r c t args e w1 Hr Hm He). rewrite Hn.
      eexists. eexists. split; [reflexivity|]. simpl. split; reflexivity.
Qed.

(** X4.  After any chaining operation, whatever its outcome, the shared
    debug slot holds the raw payload of the source container: in deferred
    mode that is the promise, not the value it settles to. *)
Theorem debug_slot_holds_source_payload (w : world) (r : nat) (c : Flow)
    (op : chaining) (res : completion nat) (w' : world) :
  heap w !! r = Some c ->
  chain r op w = Some (res, w') ->
  currentValue w' = value c.
Proof.
  intros Hr. destruct (chain_is_pipe r op) as (t & args & ->). intros Hp.
  destruct (isAsync c) eqn:Hm.
  - rewrite (pipe_async w r c t args Hr Hm) in Hp.
    destruct (asyncTransform c t args (set_currentValue (value c) w))
      as [st w1] eqn:Ha.
    apply asyncTransform_frame in Ha as (_ & Hv & _). simpl in Hv.
    inversion Hp; subst. exact Hv.
  - destruct (executeTransformation t
                (fst (prepareTransformationArgs (value c) args))
                (snd (prepareTransformationArgs (value c) args))
                (set_currentValue (value c) w)) as [[x|e] w1] eqn:He.
    + rewrite (pipe_sync_normal w r c t args x w1 Hr Hm He) in Hp.
      apply executeTransformation_frame in He as (_ & Hv & _). simpl in Hv.
      inversion Hp; subst. exact Hv.
    + rewrite (pipe_sync_thrown w r c t args e w1 Hr Hm He) in Hp.
      apply executeTransformation_frame in He as (_ & Hv & _). simpl in Hv.
      destruct (apply_callable (errorHandler c) (VFlow r) [e] (log (EvHandler r e) w1))
        as [[y|e2] w2] eqn:Ha;
        apply apply_callable_frame in Ha as (_ & _ & Hv2); simpl in Hv2;
        inversion Hp; subst; simpl; congruence.
Qed.

Lemma stage_settlement_plain (v : val) :
  instanceof_Promise v = false -> stage_settlement (Normal v) = Fulfilled v.
Proof. intros Hv. simpl. now rewrite !(await_plain v Hv). Qed.

Lemma stage_output_plain (c : Flow) (v : val) :
  instanceof_Promise v = false ->
  stage_output c v = if isAsync c then VPromise (Fulfilled v) else v.
Proof.
  intros Hv. unfold stage_output. now rewrite (stage_settlement_plain v Hv).
Qed.

Lemma lookup_snoc {A} (l : list A) (a : A) : (l ++ [a]) !! length l = Some a.
Proof. rewrite lookup_app_r by lia. now rewrite Nat.sub_diag. Qed.

(** A stage without extra arguments whose function transformer returns
    [out] on the stage input, in either mode. *)
Lemma pipe_fun_returns (w : world) r (c : Flow) (f : callable) v out u' :
  heap w !! r = Some c ->
  stage_input c v ->
  invoke f VNull [v] (user w) = (Normal out, u') ->
  pipe r (TFun f) [] w =
    Some (Normal (length (heap w)),
          set_heap (heap w ++ [mkFlow (stage_output c out) noop (isAsync c)])
            (set_user u' (log (EvTransform VNull [v])
                            (set_currentValue (value c) w)))).
Proof.
  intros Hr Hin Hi. unfold stage_input, stage_output in *.
  destruct (isAsync c) eqn:Hm.
  - destruct Hin as [Hv _].
    now rewrite (pipe_fun_async w r c f v _ _ Hr Hm Hv Hi).
  - subst v. now rewrite (pipe_fun_sync_normal w r c f _ _ Hr Hm Hi).
Qed.

Lemma pipe_fun_sync_thrown (w : world) r (c : Flow) (f : callable) e u1 y u2 :
  heap w !! r = Some c -> isAsync c = false ->
  invoke f VNull [value c] (user w) = (Thrown e, u1) ->
  invoke (errorHandler c) (VFlow r) [e] u1 = (Normal y, u2) ->
  pipe r (TFun f) [] w =
    Some (Normal (length (heap w)),
          set_heap (heap w ++ [mkFlow VUndefined noop false])
            (set_user u2
               (log (EvHandler r e)
                  (set_user u1 (log (EvTransform VNull [value c])
                                  (set_currentValue (value c) w)))))).
Proof.
  intros Hr Hm Hi Hh.
  rewrite (pipe_sync_thrown w r c _ [] e _ Hr Hm (execute_fun_sync w c f _ _ Hi)).
  unfold apply_callable. simpl. rewrite Hh. reflexivity.
Qed.

(** X5.  [tap] applies [fn] once to the stage input and, when [fn] returns,
    forwards that input as the new payload whatever [fn] returned; the
    effect of [fn] on the user state is kept. *)
Theorem tap_forwards_the_value (w : world) (r : nat) (c : Flow) (fn : callable)
    (v x : val) (u' : UserState) :
  heap w !! r = Some c ->
  stage_input c v ->
  invoke fn VUndefined [v] (user w) = (Normal x, u') ->
  tap r fn w =
    Some (Normal (length (heap w)),
          set_heap (heap w ++ [mkFlow (stage_output c v) noop (isAsync c)])
            (set_user u' (log (EvTransform VNull [v])
                            (set_currentValue (value c) w)))).
Proof.
  intros Hr Hin Hi. unfold tap.
  apply (pipe_fun_returns w r c _ v v u' Hr Hin).
  unfold invoke at 1. cbn [fn_body fn_async nth]. now rewrite Hi.
Qed.

(** X6.  When the effect of [tap] throws on an immediate container, the
    value is not forwarded: the container's handler receives the error and
    the new payload is undefined. *)
Theorem tap_failure_loses_the_value (w : world) (r : nat) (c : Flow)
    (fn : callable) (e y : val) (u1 u2 : UserState) :
  heap w !! r = Some c ->
  isAsync c = false ->
  invoke fn VUndefined [value c] (user w) = (Thrown e, u1) ->
  invoke (errorHandler c) (VFlow r) [e] u1 = (Normal y, u2) ->
  exists w',
    tap r fn w = Some (Normal (length (heap w)), w') /\
    heap w' = heap w ++ [mkFlow VUndefined noop false] /\
    user w' = u2 /\
    handler_calls (trace w') = handler_calls (trace w) ++ [(r, e)].
Proof.
  intros Hr Hm Hi Hh. unfold tap.
  erewrite (pipe_fun_sync_thrown w r c _ e u1 y u2 Hr Hm); [|  | exact Hh].
  - eexists. split; [reflexivity|]. simpl. repeat split.
    rewrite !handler_calls_app. simpl. now rewrite app_nil_r.
  - unfold invoke at 1. cbn [fn_body fn_async nth]. now rewrite Hi.
Qed.

(** X7.  Two [map] stages in a row: the second transformer is applied to
    the stage input of the container the first one made, that is to the
    first result itself in immediate mode (a promise stays a promise) and
    to the value it is fulfilled with in deferred mode; the effects on the
    user state follow one another. *)
Theorem map_then_map (w : world) (r : nat) (c : Flow) (f g : callable)
    (v x x' y : val) (u1 u2 : UserState) :
  heap w !! r = Some c ->
  stage_input c v ->
  invoke f VNull [v] (user w) = (Normal x, u1) ->
  stage_input (mkFlow (stage_output c x) noop (isAsync c)) x' ->
  invoke g VNull [x'] u1 = (Normal y, u2) ->
  exists w',
    (r1 <- map r f ;; map r1 g) w = Some (Normal (S (length (heap w))), w') /\
    heap w' = heap w ++
      [mkFlow (stage_output c x) noop (isAsync c);
       mkFlow (stage_output (mkFlow (stage_output c x) noop (isAsync c)) y)
         noop (isAsync c)] /\
    user w' = u2 /\
    transform_calls (trace w') =
      transform_calls (trace w) ++ [(VNull, [v]); (VNull, [x'])].
Proof.
  intros Hr Hin Hf Hin' Hg. unfold map, bind at 1.
  rewrite (pipe_fun_returns w r c f v x u1 Hr Hin Hf).
  erewrite (pipe_fun_returns _ _ (mkFlow (stage_output c x) noop (isAsync c))
              g x' y u2); [| apply lookup_snoc | exact Hin' | exact Hg].
  eexists. split.
  - f_equal. f_equal. f_equal. simpl. rewrite length_app. simpl. lia.
  - simpl. rewrite <- app_assoc. split; [reflexivity|]. split; [reflexivity|].
    rewrite !transform_calls_app. simpl. now rewrite <- app_assoc.
Qed.

(** X8.  [filter] keeps the stage input when the predicate returns a truthy
    value and replaces it by null otherwise; a container is made in both
    cases. *)
Theorem filter_keeps_or_nulls (w : world) (r : nat) (c : Flow)
    (predicate : callable) (v b : val) (u' : UserState) :
  heap w !! r = Some c ->
  stage_input c v ->
  invoke predicate VUndefined [v] (user w) = (Normal b, u') ->
  filter r predicate w =
    Some (Normal (length (heap w)),
          set_heap (heap w ++
                    [mkFlow (stage_output c (if truthy b then v else VNull))
                       noop (isAsync c)])
            (set_user u' (log (EvTransform VNull [v])
                            (set_currentValue (value c) w)))).
Proof.
  intros Hr Hin Hi. unfold filter.
  apply (pipe_fun_returns w r c _ v _ u' Hr Hin).
  unfold invoke at 1. cbn [fn_body fn_async nth]. now rewrite Hi.
Qed.

(** X9.  A predicate or a condition declared [async] returns a promise,
    which is truthy: [filter] then keeps every value, and [when] always
    takes the first branch. *)
Theorem async_predicate_is_always_truthy (w : world) (r : nat) (c : Flow)
    (p : callable) (v : val) :
  heap w !! r = Some c ->
  stage_input c v ->
  fn_async p = true ->
  exists st u1,
    invoke p VUndefined [v] (user w) = (Normal (VPromise st), u1) /\
    filter r p w =
      Some (Normal (length (heap w)),
            set_heap (heap w ++ [mkFlow (stage_output c v) noop (isAsync c)])
              (set_user u1 (log (EvTransform VNull [v])
                              (set_currentValue (value c) w)))) /\
    (forall thenFn elseFn x u2,
       invoke thenFn VUndefined [v] u1 = (Normal x, u2) ->
       when r (CondFun p) thenFn elseFn w =
         Some (Normal (length (heap w)),
               set_heap (heap w ++ [mkFlow (stage_output c x) noop (isAsync c)])
                 (set_user u2 (log (EvTransform VNull [v])
                                 (set_currentValue (value c) w))))).
Proof.
  intros Hr Hin Ha.
  destruct (invoke_async p VUndefined [v] (user w) Ha) as (st & u1 & Hp).
  exists st, u1. split; [exact Hp|]. split.
  - unfold filter. apply (pipe_fun_returns w r c _ v v u1 Hr Hin).
    unfold invoke at 1. cbn [fn_body fn_async nth]. now rewrite Hp.
  - intros thenFn elseFn x u2 Ht. unfold when.
    apply (pipe_fun_returns w r c _ v x u2 Hr Hin).
    unfold invoke at 1. cbn [fn_body fn_async nth]. rewrite Hp.
    cbn [truthy]. now rewrite Ht.
Qed.

(** X10.  [when] evaluates its condition once on the stage input and runs
    one branch only, on the user state the condition left: the first
    function when the condition is truthy, the second one when it is not
    and there is one, and otherwise none, the input being forwarded as it
    is. *)
Theorem when_selects_one_branch (w : world) (r : nat) (c : Flow)
    (cond : condition) (thenFn : callable) (elseFn : option callable)
    (v b : val) (u1 : UserState) :
  heap w !! r = Some c ->
  stage_input c v ->
  eval_condition cond v (user w) = (Normal b, u1) ->
  (truthy b = true ->
   forall x u2,
     invoke thenFn VUndefined [v] u1 = (Normal x, u2) ->
     when r cond thenFn elseFn w =
       Some (Normal (length (heap w)),
             set_heap (heap w ++ [mkFlow (stage_output c x) noop (isAsync c)])
               (set_user u2 (log (EvTransform VNull [v])
                               (set_currentValue (value c) w))))) /\
  (truthy b = false ->
   forall g x u2,
     elseFn = Some g ->
     invoke g VUndefined [v] u1 = (Normal x, u2) ->
     when r cond thenFn elseFn w =
       Some (Normal (length (heap w)),
             set_heap (heap w ++ [mkFlow (stage_output c x) noop (isAsync c)])
               (set_user u2 (log (EvTransform VNull [v])
                               (set_currentValue (value c) w))))) /\
  (truthy b = false ->
   elseFn = None ->
   when r cond thenFn elseFn w =
     Some (Normal (length (heap w)),
           set_heap (heap w ++ [mkFlow (stage_output c v) noop (isAsync c)])
             (set_user u1 (log (EvTransform VNull [v])
                             (set_currentValue (value c) w))))).
Proof.
  intros Hr Hin Hc. unfold eval_condition in Hc.
  split; [|split].
  - intros Hb x u2 Ht. unfold when.
    apply (pipe_fun_returns w r c _ v x u2 Hr Hin).
    unfold invoke at 1. cbn [fn_body fn_async nth]. rewrite Hc, Hb. now rewrite Ht.
  - intros Hb g x u2 -> Hg. unfold when.
    apply (pipe_fun_returns w r c _ v x u2 Hr Hin).
    unfold invoke at 1. cbn [fn_body fn_async nth]. rewrite Hc, Hb. now rewrite Hg.
  - intros Hb ->. unfold when.
    apply (pipe_fun_returns w r c _ v v u1 Hr Hin).
    unfold invoke at 1. cbn [fn_body fn_async nth]. now rewrite Hc, Hb.
Qed.

(** X11.  A transformer that is not a function is the result of its stage:
    nothing is applied, the trace and the user state stay as they are, the
    extra arguments count only through a sentinel in last position, and on
    an immediate container the stage cannot fail.  On a deferred container
    with a fulfilled payload the constant is awaited first. *)
Theorem constant_stage_applies_nothing (w : world) (r : nat) (c : Flow)
    (k : val) (args : list val) :
  heap w !! r = Some c ->
  (isAsync c = false ->
   pipe r (TConst k) args w =
     Some (Normal (length (heap w)),
           set_heap (heap w ++
                     [mkFlow (determineFinalValue k (value c) args) noop false])
             (set_currentValue (value c) w))) /\
  (isAsync c = true ->
   forall v, await (value c) = Fulfilled v ->
   pipe r (TConst k) args w =
     Some (Normal (length (heap w)),
           set_heap (heap w ++
                     [mkFlow (VPromise
                                match await k with
                                | Fulfilled y => await (determineFinalValue y v args)
                                | Rejected e => Rejected e
                                | Pending => Pending
                                end) noop true])
             (set_currentValue (value c) w))).
Proof.
  intros Hr. split.
  - intros Hm. apply (pipe_sync_normal w r c (TConst k) args k _ Hr Hm).
    reflexivity.
  - intros Hm v Hv. rewrite (pipe_async w r c _ args Hr Hm).
    unfold asyncTransform. rewrite await_Promise_resolve, Hv.
    destruct (prepareTransformationArgs v args) as [ctx ca].
    cbn [executeTransformation]. rewrite await_Promise_resolve.
    destruct (await k); reflexivity.
Qed.

(** X12.  On an immediate container a transformer declared [async] never
    reaches the handler: under the default call convention the stage always
    makes a container, the result being the promise the transformer
    returned, rejected with [e] when its body threw [e]. *)
Theorem async_failure_escapes_the_handler (w : world) (r : nat) (c : Flow)
    (f : callable) (args : list val) :
  heap w !! r = Some c ->
  isAsync c = false ->
  fn_async f = true ->
  ~ is_override_spec (nth 0 args VUndefined) ->
  exists st w',
    pipe r (TFun f) args w = Some (Normal (length (heap w)), w') /\
    heap w' = heap w ++
      [mkFlow (determineFinalValue (VPromise st) (value c) args) noop false] /\
    handler_calls (trace w') = handler_calls (trace w) /\
    forall e u1,
      fn_body f VNull (value c :: args) (user w) = (Thrown e, u1) ->
      st = Rejected e.
Proof.
  intros Hr Hm Ha Hn.
  assert (Hb : truthy (nth 0 args VUndefined)
               && isValidFunctionCallSpec (nth 0 args VUndefined) = false).
  { destruct (truthy (nth 0 args VUndefined)
              && isValidFunctionCallSpec (nth 0 args VUndefined)) eqn:E;
      [|reflexivity].
    exfalso. apply Hn. now apply override_spec_reflect. }
  assert (Hprep : prepareTransformationArgs (value c) args
                  = (VNull, VArray (value c :: args)))
    by (unfold prepareTransformationArgs; now rewrite Hb).
  destruct (fn_body f VNull (value c :: args) (user w)) as [cpl u1] eqn:Hbody.
  assert (He : executeTransformation (TFun f)
                 (fst (prepareTransformationArgs (value c) args))
                 (snd (prepareTransformationArgs (value c) args))
                 (set_currentValue (value c) w)
               = (Normal (VPromise match cpl with
                                   | Normal x => await x
                                   | Thrown e => Rejected e
                                   end),
                  set_user u1 (log (EvTransform VNull (value c :: args))
                                 (set_currentValue (value c) w)))).
  { rewrite Hprep. unfold executeTransformation, apply_callable, invoke. simpl.
    rewrite Hbody, Ha. reflexivity. }
  rewrite (pipe_sync_normal w r c _ args _ _ Hr Hm He).
  eexists. eexists. split; [reflexivity|]. simpl. split; [reflexivity|]. split.
  - rewrite handler_calls_app. simpl. apply app_nil_r.
  - intros e u2 [= -> _]. reflexivity.
Qed.

(** X13.  Registering a second handler on a container replaces the first:
    the two registrations leave the same world as the second one alone. *)
Theorem catch_replaces_the_handler (w : world) (r : nat) (c : Flow)
    (h1 h2 : callable) :
  heap w !! r = Some c ->
  (r1 <- catch r h1 ;; catch r1 h2) w = catch r h2 w.
Proof.
  intros Hr.
  assert (Hlt : (r < length (heap w))%nat) by (eapply lookup_lt_Some; eauto).
  unfold catch, bind, this_flow, modify, ret. rewrite Hr. simpl.
  rewrite list_lookup_insert_eq by exact Hlt. simpl.
  unfold set_heap. simpl. now rewrite list_insert_insert_eq.
Qed.

(** X14.  With at least one attempt, [retry] on a container whose payload
    is a value, or a promise fulfilled with a value, makes a container that
    resolves to that value; its transformer has been applied once. *)
Theorem retry_returns_a_fulfilled_value (w : world) (r : nat) (c : Flow)
    (x : val) (attempts : Z) :
  heap w !! r = Some c ->
  await (value c) = Fulfilled x ->
  instanceof_Promise x = false ->
  1 <= attempts ->
  exists w',
    retry r attempts w = Some (Normal (length (heap w)), w') /\
    resolves_to w' (length (heap w)) x /\
    length (transform_calls (trace w')) = S (length (transform_calls (trace w))).
Proof.
  intros Hr Hv Hx Ha. unfold retry.
  pose proof (await_plain x Hx) as Hax.
  destruct (isAsync c) eqn:Hm.
  - erewrite (pipe_fun_async w r c _ x _ _ Hr Hm Hv);
      [| apply invoke_retry; apply (retry_loop_fulfilled x x); [lia|exact Hax]].
    eexists. split; [reflexivity|]. split.
    + eexists. split; [eapply (get_new_Flow _ (heap w)); reflexivity|].
      simpl. now rewrite !Hax.
    + simpl. rewrite transform_calls_app, length_app. simpl. lia.
  - erewrite (pipe_fun_sync_normal w r c _ _ _ Hr Hm);
      [| apply invoke_retry; apply (retry_loop_fulfilled (value c) x); [lia|exact Hv]].
    eexists. split; [reflexivity|]. split.
    + eexists. split; [eapply (get_new_Flow _ (heap w)); reflexivity|].
      simpl. exact Hax.
    + simpl. rewrite transform_calls_app, length_app. simpl. lia.
Qed.

(** X15.  [delay] keeps the outcome: the container it makes resolves the
    way the source payload settles, fulfilled with the same value, rejected
    with the same error, or never. *)
Theorem delay_preserves_the_settlement (w : world) (r : nat) (c : Flow) (ms : Z) :
  heap w !! r = Some c ->
  well_settled (await (value c)) ->
  exists w' g,
    delay r ms w = Some (Normal (length (heap w)), w') /\
    get (length (heap w)) w' = Some (Normal g, w') /\
    await g = await (value c).
Proof.
  intros Hr Hw. unfold delay. destruct (isAsync c) eqn:Hm.
  - destruct (await (value c)) as [v|e|] eqn:Hv.
    + simpl in Hw.
      erewrite (pipe_fun_async w r c _ v _ _ Hr Hm Hv); [|reflexivity].
      eexists. eexists. split; [reflexivity|]. split.
      * eapply (get_new_Flow _ (heap w)). reflexivity.
      * simpl. now rewrite !(await_plain v Hw).
    + rewrite (pipe_async_unfulfilled w r c _ [] Hr Hm)
        by (intros v; rewrite Hv; discriminate).
      eexists. eexists. split; [reflexivity|]. split.
      * eapply (get_new_Flow _ (heap w)). reflexivity.
      * simpl. exact Hv.
    + rewrite (pipe_async_unfulfilled w r c _ [] Hr Hm)
        by (intros v; rewrite Hv; discriminate).
      eexists. eexists. split; [reflexivity|]. split.
      * eapply (get_new_Flow _ (heap w)). reflexivity.
      * simpl. exact Hv.
  - erewrite (pipe_fun_sync_normal w r c _ _ _ Hr Hm); [|reflexivity].
    eexists. eexists. split; [reflexivity|]. split.
    + eapply (get_new_Flow _ (heap w)). reflexivity.
    + reflexivity.
Qed.

(** X16.  A sentinel shapes the result only in last position: placed
    first, before other extra arguments, it is handed to the transformer
    like them and the computed result is the payload. *)
Theorem sentinel_shapes_only_in_last_position (w : world) (r : nat) (c : Flow)
    (f : callable) (s a : val) (pre : list val) (x : val) (u' : UserState) :
  heap w !! r = Some c ->
  isAsync c = false ->
  s = FlowContext.returnOriginal \/ s = FlowContext.returnBoth ->
  a <> FlowContext.returnOriginal ->
  a <> FlowContext.returnBoth ->
  invoke f VNull (value c :: s :: pre ++ [a]) (user w) = (Normal x, u') ->
  pipe r (TFun f) (s :: pre ++ [a]) w =
    Some (Normal (length (heap w)),
          set_heap (heap w ++ [mkFlow x noop false])
            (set_user u' (log (EvTransform VNull (value c :: s :: pre ++ [a]))
                            (set_currentValue (value c) w)))).
Proof.
  intros Hr Hm Hs Ha1 Ha2 Hi.
  assert (Hprep : prepareTransformationArgs (value c) (s :: pre ++ [a])
                  = (VNull, VArray (value c :: s :: pre ++ [a])))
    by (destruct Hs as [->| ->]; reflexivity).
  assert (Hlast : List.last (s :: pre ++ [a]) VUndefined = a)
    by (change (s :: pre ++ [a]) with ((s :: pre) ++ [a]); apply last_last).
  assert (He : executeTransformation (TFun f)
                 (fst (prepareTransformationArgs (value c) (s :: pre ++ [a])))
                 (snd (prepareTransformationArgs (value c) (s :: pre ++ [a])))
                 (set_currentValue (value c) w)
               = (Normal x,
                  set_user u' (log (EvTransform VNull (value c :: s :: pre ++ [a]))
                                 (set_currentValue (value c) w)))).
  { rewrite Hprep. unfold executeTransformation, apply_callable. simpl.
    rewrite Hi. reflexivity. }
  rewrite (pipe_sync_normal w r c _ _ _ _ Hr Hm He).
  destruct (determineFinalValue_cases x (value c) (s :: pre ++ [a])) as (_ & _ & Hd).
  rewrite Hd by (rewrite Hlast; assumption). reflexivity.
Qed.

(** X17.  A container is changed by nothing but a [catch] on that very
    container: after any sequence of operations in which there is none, it
    is in the store exactly as before, handler included. *)
Theorem containers_change_only_by_catch (prog : list (nat * operation))
    (w w' : world) (r0 : nat) (c0 : Flow) :
  Forall (fun ro => fst ro <> r0 \/ forall h, snd ro <> OCatch h) prog ->
  run prog w = Some w' ->
  heap w !! r0 = Some c0 ->
  heap w' !! r0 = Some c0.
Proof.
  revert w. induction prog as [|[r o] prog IH]; intros w Hall Hrun H0.
  - simpl in Hrun. now inversion Hrun; subst.
  - simpl in Hrun. destruct (step r o w) as [w1|] eqn:Hs; [|discriminate].
    inversion Hall as [|ro l Hro Hl]; subst. simpl in Hro.
    apply (IH w1 Hl Hrun).
    destruct o as [|h|op]; simpl in Hs.
    + destruct (get r w) as [[res w2]|] eqn:Hg; [|discriminate].
      inversion Hs; subst. apply get_outcome in Hg as [-> _]. exact H0.
    + destruct (catch r h w) as [[res w2]|] eqn:Hc; [|discriminate].
      inversion Hs; subst. apply catch_outcome in Hc as (c & Hr & _ & ->).
      simpl. destruct Hro as [Hne|Hnc]; [|now destruct (Hnc h)].
      now rewrite list_lookup_insert_ne.
    + destruct (chain r op w) as [[res w2]|] eqn:Hc; [|discriminate].
      inversion Hs; subst. apply chain_outcome in Hc as (c & Hr & Hheap & _).
      destruct Hheap as [(c' & _ & -> & _)|(e & _ & -> & _)]; [|exact H0].
      now apply lookup_app_l_Some.
Qed.

End Operators.

(** * Concrete instances *)

#[local] Existing Instance plain_host.
Local Open Scope flow_scope.

Lemma pipe_failure_isolation_witness :
  (exists w',
     pipe 0 (TFun (throwing (VStr "boom"))) []
       (single (mkFlow (VNum 5) recording false))
     = Some (Normal 1%nat, w') /\
     heap w' = [mkFlow (VNum 5) recording false; mkFlow VUndefined noop false] /\
     handler_calls (trace w') = [(0%nat, VStr "boom")]) /\
  (exists st w',
     pipe 0 (TFun (throwing (VStr "boom"))) []
       (single (mkFlow (VPromise (Fulfilled (VNum 5))) recording true))
     = Some (Normal 1%nat, w') /\
     handler_calls (trace w') = [] /\
     st = Rejected (VStr "boom") /\
     rejects_with w' 1 (VStr "boom")).
Proof.
  split.
  - destruct (pipe_failure_isolation
                (single (mkFlow (VNum 5) recording false)) 0
                (mkFlow (VNum 5) recording false)
                (TFun (throwing (VStr "boom"))) [] eq_refl) as [Hs _].
    destruct (Hs eq_refl (VStr "boom")
                (log (EvTransform VNull [VNum 5])
                   (set_currentValue (VNum 5)
                      (single (mkFlow (VNum 5) recording false)))))
      as (w' & Hp & Hh & Hc).
    + reflexivity.
    + exists VUndefined, [VStr "boom"]. reflexivity.
    + exists w'. split; [exact Hp|]. split; [exact Hh|exact Hc].
  - destruct (pipe_failure_isolation
                (single (mkFlow (VPromise (Fulfilled (VNum 5))) recording true)) 0
                (mkFlow (VPromise (Fulfilled (VNum 5))) recording true)
                (TFun (throwing (VStr "boom"))) [] eq_refl) as [_ Hd].
    destruct (Hd eq_refl) as (st & w' & Hp & _ & Hc & Hf).
    destruct (Hf (VStr "boom")) as [Hst Hrej].
    + eapply transformer_throws; reflexivity.
    + exists st, w'. split; [exact Hp|]. split; [exact Hc|]. split; [exact Hst|exact Hrej].
Defined.

(** C1, counterexample.  A handler that itself throws: the failure of the
    handler leaves [pipe], and no container is returned. *)
Lemma throwing_handler_aborts_pipe :
  fst <$> (r <- flow (VNum 5) ;;
           _ <- catch r rethrow ;;
           pipe r (TFun (throwing (VStr "boom"))) []) start
  = Some (Thrown (VStr "boom")) /\
  ~ (exists r' w',
       (r <- flow (VNum 5) ;;
        _ <- catch r rethrow ;;
        pipe r (TFun (throwing (VStr "boom"))) []) start
       = Some (Normal r', w')).
Proof.
  split; [reflexivity|].
  intros (r' & w' & Hp). vm_compute in Hp. discriminate.
Qed.

Lemma delay_on_immediate_witness :
  exists w',
    (delay 0 100 (single (mkFlow (VNum 5) noop false)) = Some (Normal 1%nat, w')) /\
    heap w' = [mkFlow (VNum 5) noop false;
               mkFlow (VPromise (Fulfilled (VNum 5))) noop false].
Proof.
  destruct (delay_on_immediate_stays_immediate
              (single (mkFlow (VNum 5) noop false)) 0 (mkFlow (VNum 5) noop false) 100
              eq_refl eq_refl) as (w' & Hd & Hh & _).
  exists w'. split; [exact Hd|exact Hh].
Defined.

Lemma call_convention_witness :
  stage_applies (single (mkFlow (VNum 5) noop false)) 0 (mkFlow (VNum 5) noop false)
    double
    [VObject [("this", VStr "ctx"); ("args", VArray [VNum 1; VNum 2])]; VNum 9]
    (VNum 5) (VStr "ctx") [VNum 1; VNum 2] /\
  stage_applies (single (mkFlow (VNum 5) noop false)) 0 (mkFlow (VNum 5) noop false)
    double [VObject [("this", VStr "ctx")]] (VNum 5) (VStr "ctx") [] /\
  stage_applies (single (mkFlow (VNum 5) noop false)) 0 (mkFlow (VNum 5) noop false)
    double [VNum 9] (VNum 5) VNull [VNum 5; VNum 9] /\
  stage_fails_uncalled (single (mkFlow (VNum 5) noop false)) 0
    (mkFlow (VNum 5) noop false) double
    [VObject [("this", VStr "ctx"); ("args", VNum 5)]] TypeError.
Proof.
  split; [|split; [|split]].
  - destruct (call_convention (single (mkFlow (VNum 5) noop false)) 0
                (mkFlow (VNum 5) noop false) double
                [VObject [("this", VStr "ctx"); ("args", VArray [VNum 1; VNum 2])];
                 VNum 9]
                (VNum 5) eq_refl eq_refl) as [Ho _].
    destruct Ho as (Ha & _).
    + repeat split; try discriminate. left. discriminate.
    + exact (Ha [VNum 1; VNum 2] eq_refl).
  - destruct (call_convention (single (mkFlow (VNum 5) noop false)) 0
                (mkFlow (VNum 5) noop false) double
                [VObject [("this", VStr "ctx")]]
                (VNum 5) eq_refl eq_refl) as [Ho _].
    destruct Ho as (_ & Ha & _).
    + repeat split; try discriminate. left. discriminate.
    + exact (Ha (or_introl eq_refl)).
  - destruct (call_convention (single (mkFlow (VNum 5) noop false)) 0
                (mkFlow (VNum 5) noop false) double [VNum 9]
                (VNum 5) eq_refl eq_refl) as [_ Hn].
    apply Hn. intros (Ht & _). discriminate.
  - destruct (call_convention (single (mkFlow (VNum 5) noop false)) 0
                (mkFlow (VNum 5) noop false) double
                [VObject [("this", VStr "ctx"); ("args", VNum 5)]]
                (VNum 5) eq_refl eq_refl) as [Ho _].
    destruct Ho as (_ & _ & _ & Ha).
    + repeat split; try discriminate. left. discriminate.
    + exact (Ha eq_refl).
Defined.

(** C3, counterexample.  The first extra argument has a [this] field, and
    an [args] field holding the number 5: the transformer is not applied at
    all; the host's type error goes to the handler and the new payload is
    undefined. *)
Lemma override_with_non_list_args_is_not_called :
  is_override_spec (VObject [("this", VStr "ctx"); ("args", VNum 5)]) /\
  exists w',
    pipe 0 (TFun double) [VObject [("this", VStr "ctx"); ("args", VNum 5)]]
      (single (mkFlow (VNum 5) recording false))
    = Some (Normal 1%nat, w') /\
    transform_calls (trace w') = [] /\
    handler_calls (trace w') = [(0%nat, TypeError)] /\
    user w' = [TypeError] /\
    heap w' !! 1%nat = Some (mkFlow VUndefined noop false).
Proof.
  split.
  - split; [reflexivity|]. split; [discriminate|]. left. discriminate.
  - eexists. split; [reflexivity|]. repeat split.
Qed.

Lemma retry_on_rejected_deferred_witness :
  exists w',
    retry 0 3 (single (mkFlow (VPromise (Rejected (VStr "e"))) noop true))
    = Some (Normal 1%nat, w') /\
    heap w' = [mkFlow (VPromise (Rejected (VStr "e"))) noop true;
               mkFlow (VPromise (Rejected (VStr "e"))) noop true] /\
    trace w' = [].
Proof.
  destruct (retry_on_rejected_deferred
              (single (mkFlow (VPromise (Rejected (VStr "e"))) noop true)) 0
              (mkFlow (VPromise (Rejected (VStr "e"))) noop true) (VStr "e") 3
              eq_refl eq_refl eq_refl) as (w' & Hr & Hh & Ht & _).
  exists w'. split; [exact Hr|]. split; [exact Hh|exact Ht].
Defined.

(** C5, counterexample.  The seed is a rejected promise, so the container
    is deferred; after [retry(3)] no transformer has been applied: no
    attempt has observed anything. *)
Lemma retry_on_rejected_deferred_makes_no_attempt :
  flow (VPromise (Rejected (VStr "e"))) start
  = Some (Normal 0%nat, single (mkFlow (VPromise (Rejected (VStr "e"))) noop true)) /\
  exists w',
    retry 0 3 (single (mkFlow (VPromise (Rejected (VStr "e"))) noop true))
    = Some (Normal 1%nat, w') /\
    transform_calls (trace w') = [] /\
    ~ attempts_observe_rejection
        (single (mkFlow (VPromise (Rejected (VStr "e"))) noop true)) w' (VStr "e").
Proof.
  split; [reflexivity|].
  eexists. split; [reflexivity|]. split; [reflexivity|].
  intros (this & v & Ht & _). simpl in Ht. discriminate.
Qed.

Lemma catch_registers_in_place_witness :
  exists w',
    catch 0 recording (single (mkFlow (VNum 5) noop false)) = Some (Normal 0%nat, w') /\
    heap w' = [mkFlow (VNum 5) recording false].
Proof.
  destruct (catch_registers_in_place
              (single (mkFlow (VNum 5) noop false)) 0 (mkFlow (VNum 5) noop false)
              recording eq_refl) as (w' & Hc & Hh & _).
  exists w'. split; [exact Hc|exact Hh].
Defined.

Lemma factory_classification_witness :
  exists w' c,
    flow (VFun 7 true) start = Some (Normal 0%nat, w') /\
    heap w' = [c] /\ isAsync c = true.
Proof.
  destruct (factory_classification (VFun 7 true) start)
    as (w' & c & Hf & Hh & _ & _ & Hd & _).
  exists w', c. split; [exact Hf|]. split; [exact Hh|].
  apply Hd. right. exists 7%nat. reflexivity.
Defined.

Lemma resolution_is_idempotent_witness :
  exists g,
    get 0 (single (mkFlow (VNum 5) noop true))
    = Some (Normal g, single (mkFlow (VNum 5) noop true)) /\
    (a <- get 0 ;; b <- get 0 ;; ret (a, b)) (single (mkFlow (VNum 5) noop true))
    = Some (Normal (g, g), single (mkFlow (VNum 5) noop true)).
Proof.
  destruct (resolution_is_idempotent
              (single (mkFlow (VNum 5) noop true)) 0 (mkFlow (VNum 5) noop true)
              eq_refl) as (g & Hg & Hgg & _).
  exists g. split; [exact Hg|exact Hgg].
Defined.

Lemma sentinel_is_positional_witness :
  exists res w',
    pipe 0 (TFun double) [FlowContext.returnBoth] (single (mkFlow (VNum 5) noop false))
    = Some (res, w') /\
    transform_calls (trace w') = [(VNull, [VNum 5; FlowContext.returnBoth])].
Proof.
  destruct (sentinel_is_positional
              (single (mkFlow (VNum 5) noop false)) 0 (mkFlow (VNum 5) noop false)
              double FlowContext.returnBoth eq_refl (or_intror eq_refl)) as [Hs _].
  destruct (Hs eq_refl) as [(res & w' & Hp & Ht) _].
  exists res, w'. split; [exact Hp|exact Ht].
Defined.

Lemma retry_zero_witness :
  exists w',
    retry 0 0 (single (mkFlow (VNum 5) noop false)) = Some (Normal 1%nat, w') /\
    resolves_to w' 1 VUndefined.
Proof.
  destruct (retry_zero (single (mkFlow (VNum 5) noop false)) 0
              (mkFlow (VNum 5) noop false) eq_refl) as (w' & Hr & Hi & _).
  exists w'. split; [exact Hr|]. apply Hi. reflexivity.
Defined.

(** C10, counterexample.  The seed is a rejected promise: [retry(0)] gives a
    container that resolves to the rejection, not to undefined. *)
Lemma retry_zero_on_rejected_deferred :
  flow (VPromise (Rejected (VStr "e"))) start
  = Some (Normal 0%nat, single (mkFlow (VPromise (Rejected (VStr "e"))) noop true)) /\
  exists w',
    retry 0 0 (single (mkFlow (VPromise (Rejected (VStr "e"))) noop true))
    = Some (Normal 1%nat, w') /\
    rejects_with w' 1 (VStr "e") /\
    ~ resolves_to w' 1 VUndefined.
Proof.
  split; [reflexivity|].
  eexists. split; [reflexivity|]. split.
  - eexists. split; reflexivity.
  - intros (g & Hg & Ha). vm_compute in Hg. inversion Hg; subst. discriminate.
Qed.

(** ** Instances for the operators *)

Lemma unfulfilled_payload_skips_every_stage_witness :
  chain 0 (OpMap double) (single (mkFlow (VPromise (Rejected (VStr "e"))) noop true))
  = Some (Normal 1%nat,
          @mkWorld plain_host (@nil val)
            [mkFlow (VPromise (Rejected (VStr "e"))) noop true;
             mkFlow (VPromise (Rejected (VStr "e"))) noop true]
            (VPromise (Rejected (VStr "e"))) []).
Proof.
  apply (unfulfilled_payload_skips_every_stage
           (single (mkFlow (VPromise (Rejected (VStr "e"))) noop true)) 0
           (mkFlow (VPromise (Rejected (VStr "e"))) noop true) (OpMap double));
    [reflexivity | reflexivity | intros v; discriminate].
Defined.

Lemma pipe_throws_only_what_the_handler_throws_witness :
  exists c e w1,
    heap (single (mkFlow (VNum 5) rethrow false)) !! 0%nat = Some c /\
    isAsync c = false /\
    sync_stage_throws c (TFun (throwing (VStr "boom"))) []
      (single (mkFlow (VNum 5) rethrow false)) e w1 /\
    e = VStr "boom".
Proof.
  edestruct (pipe_throws_only_what_the_handler_throws
               (single (mkFlow (VNum 5) rethrow false)) 0
               (TFun (throwing (VStr "boom"))) [])
    as (c & e & w1 & Hc & Hm & Hs & _ & _ & Ht); [reflexivity|].
  exists c, e, w1. split; [exact Hc|]. split; [exact Hm|]. split; [exact Hs|].
  simpl in Ht. now inversion Ht.
Defined.

Lemma chain_without_catch_never_throws_witness :
  exists w' c',
    chain 0 (OpPipe (TFun (throwing (VStr "boom"))) [])
      (single (mkFlow (VNum 5) noop false))
    = Some (Normal 1%nat, w') /\
    heap w' = [mkFlow (VNum 5) noop false; c'] /\
    errorHandler c' = noop.
Proof.
  exact (chain_without_catch_never_throws
           (single (mkFlow (VNum 5) noop false)) 0 (mkFlow (VNum 5) noop false)
           (OpPipe (TFun (throwing (VStr "boom"))) []) eq_refl eq_refl).
Defined.

Lemma debug_slot_holds_source_payload_witness :
  exists res w',
    chain 0 (OpMap double) (single (mkFlow (VPromise (Fulfilled (VNum 5))) noop true))
    = Some (res, w') /\
    currentValue w' = VPromise (Fulfilled (VNum 5)).
Proof.
  eexists. eexists. split; [reflexivity|].
  eapply (debug_slot_holds_source_payload
            (single (mkFlow (VPromise (Fulfilled (VNum 5))) noop true)) 0
            (mkFlow (VPromise (Fulfilled (VNum 5))) noop true) (OpMap double));
    reflexivity.
Defined.

Lemma tap_forwards_the_value_witness :
  exists w',
    tap 0 recording (single (mkFlow (VNum 7) noop false)) = Some (Normal 1%nat, w') /\
    heap w' = [mkFlow (VNum 7) noop false; mkFlow (VNum 7) noop false] /\
    user w' = [VNum 7].
Proof.
  rewrite (tap_forwards_the_value (single (mkFlow (VNum 7) noop false)) 0
             (mkFlow (VNum 7) noop false) recording (VNum 7) VUndefined [VNum 7]
             eq_refl eq_refl eq_refl).
  eexists. split; [reflexivity|]. split; reflexivity.
Defined.

Lemma tap_failure_loses_the_value_witness :
  exists w',
    tap 0 (throwing (VStr "boom")) (single (mkFlow (VNum 7) recording false))
    = Some (Normal 1%nat, w') /\
    heap w' = [mkFlow (VNum 7) recording false; mkFlow VUndefined noop false] /\
    user w' = [VStr "boom"].
Proof.
  destruct (tap_failure_loses_the_value
              (single (mkFlow (VNum 7) recording false)) 0
              (mkFlow (VNum 7) recording false) (throwing (VStr "boom"))
              (VStr "boom") VUndefined (@nil val) [VStr "boom"]
              eq_refl eq_refl eq_refl eq_refl) as (w' & Ht & Hh & Hu & _).
  exists w'. split; [exact Ht|]. split; [exact Hh|exact Hu].
Defined.

Lemma map_then_map_witness :
  exists w',
    (r1 <- map 0 double ;; map r1 times10) (single (mkFlow (VNum 5) noop false))
    = Some (Normal 2%nat, w') /\
    heap w' = [mkFlow (VNum 5) noop false; mkFlow (VNum 10) noop false;
               mkFlow (VNum 100) noop false].
Proof.
  destruct (map_then_map (single (mkFlow (VNum 5) noop false)) 0
              (mkFlow (VNum 5) noop false) double times10
              (VNum 5) (VNum 10) (VNum 10) (VNum 100) (@nil val) (@nil val)
              eq_refl eq_refl eq_refl eq_refl eq_refl) as (w' & Hm & Hh & _).
  exists w'. split; [exact Hm|exact Hh].
Defined.

Lemma filter_keeps_or_nulls_witness :
  fst <$> filter 0 positive (single (mkFlow (VNum (-5)) noop false))
  = Some (Normal 1%nat) /\
  (snd <$> filter 0 positive (single (mkFlow (VNum (-5)) noop false)))
    ≫= (fun w' => heap w' !! 1%nat)
  = Some (mkFlow VNull noop false).
Proof.
  rewrite (filter_keeps_or_nulls (single (mkFlow (VNum (-5)) noop false)) 0
             (mkFlow (VNum (-5)) noop false) positive (VNum (-5)) (VBool false)
             (@nil val) eq_refl eq_refl eq_refl).
  split; reflexivity.
Defined.

Lemma async_predicate_is_always_truthy_witness :
  exists w',
    filter 0 async_positive (single (mkFlow (VNum (-5)) noop false))
    = Some (Normal 1%nat, w') /\
    heap w' = [mkFlow (VNum (-5)) noop false; mkFlow (VNum (-5)) noop false].
Proof.
  destruct (async_predicate_is_always_truthy
              (single (mkFlow (VNum (-5)) noop false)) 0
              (mkFlow (VNum (-5)) noop false) async_positive (VNum (-5))
              eq_refl eq_refl eq_refl) as (st & u1 & _ & Hf & _).
  rewrite Hf. eexists. split; reflexivity.
Defined.

Lemma when_selects_one_branch_witness :
  exists w',
    when 0 (CondFun even) times10 None (single (mkFlow (VNum 3) noop false))
    = Some (Normal 1%nat, w') /\
    heap w' = [mkFlow (VNum 3) noop false; mkFlow (VNum 3) noop false].
Proof.
  destruct (when_selects_one_branch
              (single (mkFlow (VNum 3) noop false)) 0 (mkFlow (VNum 3) noop false)
              (CondFun even) times10 None (VNum 3) (VBool false) (@nil val)
              eq_refl eq_refl eq_refl) as (_ & _ & Hn).
  rewrite (Hn eq_refl eq_refl). eexists. split; reflexivity.
Defined.

Lemma constant_stage_applies_nothing_witness :
  pipe 0 (TConst (VStr "k")) [VNum 1] (single (mkFlow (VNum 5) noop false))
  = Some (Normal 1%nat,
          @mkWorld plain_host (@nil val)
            [mkFlow (VNum 5) noop false; mkFlow (VStr "k") noop false]
            (VNum 5) []).
Proof.
  destruct (constant_stage_applies_nothing
              (single (mkFlow (VNum 5) noop false)) 0 (mkFlow (VNum 5) noop false)
              (VStr "k") [VNum 1] eq_refl) as [Hs _].
  exact (Hs eq_refl).
Defined.

Lemma async_failure_escapes_the_handler_witness :
  exists w',
    pipe 0 (TFun (async_throwing (VStr "boom"))) []
      (single (mkFlow (VNum 5) recording false))
    = Some (Normal 1%nat, w') /\
    heap w' = [mkFlow (VNum 5) recording false;
               mkFlow (VPromise (Rejected (VStr "boom"))) noop false] /\
    handler_calls (trace w') = [].
Proof.
  destruct (async_failure_escapes_the_handler
              (single (mkFlow (VNum 5) recording false)) 0
              (mkFlow (VNum 5) recording false) (async_throwing (VStr "boom")) []
              eq_refl eq_refl eq_refl)
    as (st & w' & Hp & Hh & Hc & Hst).
  - intros (Ht & _). discriminate.
  - exists w'. split; [exact Hp|]. split; [|exact Hc].
    rewrite Hh, (Hst (VStr "boom") (@nil val) eq_refl). reflexivity.
Defined.

Lemma catch_replaces_the_handler_witness :
  (r1 <- catch 0 recording ;; catch r1 rethrow) (single (mkFlow (VNum 5) noop false))
  = Some (Normal 0%nat, single (mkFlow (VNum 5) rethrow false)).
Proof.
  rewrite (catch_replaces_the_handler (single (mkFlow (VNum 5) noop false)) 0
             (mkFlow (VNum 5) noop false) recording rethrow eq_refl).
  reflexivity.
Defined.

Lemma retry_returns_a_fulfilled_value_witness :
  exists w',
    retry 0 3 (single (mkFlow (VPromise (Fulfilled (VNum 5))) noop true))
    = Some (Normal 1%nat, w') /\
    resolves_to w' 1 (VNum 5).
Proof.
  destruct (retry_returns_a_fulfilled_value
              (single (mkFlow (VPromise (Fulfilled (VNum 5))) noop true)) 0
              (mkFlow (VPromise (Fulfilled (VNum 5))) noop true) (VNum 5) 3
              eq_refl eq_refl eq_refl) as (w' & Hr & Hres & _); [lia|].
  exists w'. split; [exact Hr|exact Hres].
Defined.

Lemma delay_preserves_the_settlement_witness :
  exists w' g,
    delay 0 100 (single (mkFlow (VPromise (Rejected (VStr "e"))) noop true))
    = Some (Normal 1%nat, w') /\
    get 1 w' = Some (Normal g, w') /\
    await g = Rejected (VStr "e").
Proof.
  exact (delay_preserves_the_settlement
           (single (mkFlow (VPromise (Rejected (VStr "e"))) noop true)) 0
           (mkFlow (VPromise (Rejected (VStr "e"))) noop true) 100 eq_refl I).
Defined.

Lemma sentinel_shapes_only_in_last_position_witness :
  exists w',
    pipe 0 (TFun double) [FlowContext.returnOriginal; VNum 1]
      (single (mkFlow (VNum 5) noop false))
    = Some (Normal 1%nat, w') /\
    heap w' = [mkFlow (VNum 5) noop false; mkFlow (VNum 10) noop false].
Proof.
  eexists. split.
  - exact (sentinel_shapes_only_in_last_position
             (single (mkFlow (VNum 5) noop false)) 0 (mkFlow (VNum 5) noop false)
             double FlowContext.returnOriginal (VNum 1) [] (VNum 10) (@nil val)
             eq_refl eq_refl (or_introl eq_refl)
             ltac:(discriminate) ltac:(discriminate) eq_refl).
  - reflexivity.
Defined.

Lemma containers_change_only_by_catch_witness :
  exists w',
    run [(0%nat, OGet); (0%nat, OChain (OpMap double)); (1%nat, OCatch recording)]
      (single (mkFlow (VNum 5) noop false)) = Some w' /\
    heap w' !! 0%nat = Some (mkFlow (VNum 5) noop false) /\
    heap w' !! 1%nat = Some (mkFlow (VNum 10) recording false).
Proof.
  eexists. split; [reflexivity|]. split; [|reflexivity].
  eapply (containers_change_only_by_catch
            [(0%nat, OGet); (0%nat, OChain (OpMap double)); (1%nat, OCatch recording)]
            (single (mkFlow (VNum 5) noop false)) _ 0 (mkFlow (VNum 5) noop false));
    [|reflexivity|reflexivity].
  constructor; [right; intros h; discriminate|].
  constructor; [right; intros h; discriminate|].
  constructor; [left; discriminate|].
  constructor.
Defined.

Lemma retry_on_rejected_immediate_witness :
  exists w',
    retry 0 3 (single (mkFlow (VPromise (Rejected (VStr "e"))) noop false))
    = Some (Normal 1%nat, w') /\
    heap w' = [mkFlow (VPromise (Rejected (VStr "e"))) noop false;
               mkFlow (VPromise (Rejected (VStr "e"))) noop false] /\
    trace w' = [EvTransform VNull [VPromise (Rejected (VStr "e"))]].
Proof.
  destruct (retry_on_rejected_immediate
              (single (mkFlow (VPromise (Rejected (VStr "e"))) noop false)) 0
              (mkFlow (VPromise (Rejected (VStr "e"))) noop false) (VStr "e") 3
              eq_refl eq_refl eq_refl) as (w' & Hr & Hh & Ht & _);
    [split; [lia | now vm_compute]|].
  exists w'. split; [exact Hr|]. split; [exact Hh|exact Ht].
Defined.
